(** * ImageRecorder: a ROS 2 image topic recorded as a video

    A shallow embedding of [ImageRecorder.py] and the proofs of its
    specification.  The recorder subscribes to an image topic, keeps every
    decoded frame in a Python list, and on Ctrl+C writes the list to an
    mp4 file through OpenCV.

    Python values are modelled as the code has them: [str] as [string],
    [int] as [Z], a list as [list], [None]-or-[str] as [option string].
    The calls into rclpy, cv_bridge and cv2 and the writes to the two
    attributes that change after construction are effects: each one is
    recorded as an [Event] of the trace of a run, in program order.  What
    the collaborators answer (a decoded frame or an exception, a writer or
    an exception) is given by an [Environment]. *)

From Stdlib Require Import ZArith List String Ascii Bool Lia.
From Stdlib Require Import Decimal DecimalFacts DecimalString DecimalPos DecimalZ.
Import ListNotations.

Local Open Scope string_scope.
Local Open Scope Z_scope.

(** ** Python builtins used by the source *)

Module Py.

(** [s.endswith(suffix)]: the last [len(suffix)] characters of [s] are
    [suffix]. *)
Definition endswith (s suffix : string) : bool :=
  let n := String.length s in
  let k := String.length suffix in
  (k <=? n)%nat && String.eqb (substring (n - k) k s) suffix.

(** Truth value of a [str]: the empty string is false. *)
Definition truthy_str (s : string) : bool :=
  match s with
  | EmptyString => false
  | String _ _ => true
  end.

(** Truth value of a value that is [None] or a [str], as tested by
    [if self.output_filename:]. *)
Definition truthy_opt_str (o : option string) : bool :=
  match o with
  | None => false
  | Some s => truthy_str s
  end.

(** The [str] held by a value that is [None] or a [str]; read only where the
    value is known to be true. *)
Definition the_str (o : option string) : string :=
  match o with
  | None => EmptyString
  | Some s => s
  end.

(** The greatest number of digits the interpreter converts between [int]
    and [str] (the default of [sys.get_int_max_str_digits()]). *)
Definition int_max_str_digits : Z := 4300.

(** The decimal numeral of an [int]: digits, a leading minus sign for
    negative numbers.  It is what [str(n)] and [f'{n}'] return when they
    return. *)
Definition str (n : Z) : string := NilZero.string_of_int (Z.to_int n).

(** [str(n)] and [f'{n}'] raise [ValueError] for a number of more than
    [int_max_str_digits] digits. *)
Definition str_raises (n : Z) : bool :=
  10 ^ int_max_str_digits <=? Z.abs n.

(** [float(n)] raises [OverflowError]: the nearest double is not finite. *)
Definition float_raises (n : Z) : bool :=
  2 ^ 1024 - 2 ^ 970 <=? Z.abs n.

Definition isdigit (c : ascii) : bool :=
  let n := nat_of_ascii c in (48 <=? n)%nat && (n <=? 57)%nat.

Definition digit_value (c : ascii) : Z := Z.of_nat (nat_of_ascii c) - 48.

(** The white space [int] drops around the literal of an ASCII [str]: tab,
    line feed, vertical tab, form feed, carriage return and space. *)
Definition isspace (c : ascii) : bool :=
  let n := nat_of_ascii c in
  ((9 <=? n)%nat && (n <=? 13)%nat) || (n =? 32)%nat.

Fixpoint lstrip (s : string) : string :=
  match s with
  | EmptyString => EmptyString
  | String c s' => if isspace c then lstrip s' else s
  end.

Fixpoint rstrip (s : string) : string :=
  match s with
  | EmptyString => EmptyString
  | String c s' =>
      match rstrip s' with
      | EmptyString => if isspace c then EmptyString else String c EmptyString
      | r => String c r
      end
  end.

Definition strip (s : string) : string := lstrip (rstrip s).

(** The digits of an integer literal, most significant first.  A single
    underscore may separate two digits.  [after_digit] tells whether the
    character before was a digit, [acc] is the value read so far. *)
Fixpoint int_digits (after_digit : bool) (acc : Z) (s : string) : option Z :=
  match s with
  | EmptyString => if after_digit then Some acc else None
  | String c s' =>
      if isdigit c then int_digits true (10 * acc + digit_value c) s'
      else if Ascii.eqb c "_" && after_digit then int_digits false acc s'
      else None
  end.

(** The number of digits of a literal. *)
Fixpoint count_digits (s : string) : Z :=
  match s with
  | EmptyString => 0
  | String c s' => (if isdigit c then 1 else 0) + count_digits s'
  end.

(** The value of the literal in [s]: white space around it is dropped,
    then an optional sign and the decimal digits are read.  [None]: [s]
    holds no integer literal. *)
Definition int_value (s : string) : option Z :=
  match strip s with
  | String "-" ds => option_map Z.opp (int_digits false 0 ds)
  | String "+" ds => int_digits false 0 ds
  | ds => int_digits false 0 ds
  end.

(** [int(s)] for a [str] of ASCII characters.  [None] stands for
    [ValueError], raised when [s] holds no integer literal and when the
    literal has more than [int_max_str_digits] digits. *)
Definition int (s : string) : option Z :=
  if count_digits (strip s) <=? int_max_str_digits then int_value s
  else None.

(** Every character is below 128. *)
Fixpoint isascii (s : string) : bool :=
  match s with
  | EmptyString => true
  | String c s' => (nat_of_ascii c <? 128)%nat && isascii s'
  end.

End Py.

(** ** Messages, frames and the effects of a run *)

(** A [sensor_msgs/Image] message, by the fields of its definition (the
    header apart). *)
Record Image := {
  msg_height : Z;
  msg_width : Z;
  msg_encoding : string;
  msg_is_bigendian : bool;
  msg_step : Z;
  msg_data : list Byte.byte
}.

(** A decoded frame: the array [imgmsg_to_cv2] returns for [bgr8], of shape
    [(height, width, 3)]. *)
Record Frame := {
  height : Z;
  width : Z;
  pixels : list Byte.byte
}.

(** [frame.shape[:2]] *)
Definition shape2 (f : Frame) : Z * Z := (height f, width f).

Inductive ReliabilityPolicy := BEST_EFFORT | RELIABLE.
Inductive HistoryPolicy := KEEP_LAST | KEEP_ALL.

Record QoSProfile := {
  reliability : ReliabilityPolicy;
  history : HistoryPolicy;
  depth : Z
}.

Inductive severity := INFO | ERROR.

(** What a run does, in program order: the calls into its collaborators,
    each recorded when it is made (whether it then returns or raises), and
    the writes to the attributes [frames] and [recording].
    [VideoWriter_open] is the call of the constructor [cv2.VideoWriter]. *)
Inductive Event :=
| Rclpy_init
| Create_subscription (topic : string) (qos : QoSProfile)
| Log (level : severity) (text : string)
| Imgmsg_to_cv2 (msg : Image) (desired_encoding : string)
| VideoWriter_open (filename : string) (fourcc : Z) (fps : Z)
                   (frameSize : Z * Z)
| VideoWriter_write (frame : Frame)
| VideoWriter_release
| Destroy_node
| Rclpy_shutdown
| Frames_assign (value : list Frame)
| Frames_append (frame : Frame)
| Recording_assign (value : bool).

(** What the collaborators answer.
    - [imgmsg_to_cv2 msg desired_encoding]: the frame
      [CvBridge.imgmsg_to_cv2] returns, or [None] when it raises;
    - [utcoffset t]: the offset of local time from UTC, in seconds, in
      force at the instant [t];
    - [create_subscription_returns topic]: rclpy accepts the topic name
      (it raises [InvalidTopicNameException] otherwise);
    - [VideoWriter_returns filename fourcc fps frameSize]: the constructor
      [cv2.VideoWriter] returns a writer for these arguments; it raises
      otherwise, as it does for a frame rate that is no C double.  A file
      that cannot be opened is no exception: OpenCV reports it through
      [isOpened()], which the source never reads. *)
Record Environment := {
  imgmsg_to_cv2 : Image -> string -> option Frame;
  utcoffset : Z -> Z;
  create_subscription_returns : string -> bool;
  VideoWriter_returns : string -> Z -> Z -> Z * Z -> bool
}.

(** [cv2.VideoWriter_fourcc(c1, c2, c3, c4)] *)
Definition VideoWriter_fourcc (c1 c2 c3 c4 : ascii) : Z :=
  Z.lor (Z.lor (Z.of_nat (nat_of_ascii c1))
               (Z.shiftl (Z.of_nat (nat_of_ascii c2)) 8))
        (Z.lor (Z.shiftl (Z.of_nat (nat_of_ascii c3)) 16)
               (Z.shiftl (Z.of_nat (nat_of_ascii c4)) 24)).

(** The frames handed to [out.write], in the order of the calls. *)
Fixpoint written_frames (tr : list Event) : list Frame :=
  match tr with
  | [] => []
  | VideoWriter_write f :: tr' => f :: written_frames tr'
  | _ :: tr' => written_frames tr'
  end.

(** The paths [cv2.VideoWriter] is called on. *)
Fixpoint opened_files (tr : list Event) : list string :=
  match tr with
  | [] => []
  | VideoWriter_open p _ _ _ :: tr' => p :: opened_files tr'
  | _ :: tr' => opened_files tr'
  end.

(** The frame rates given to the encoder. *)
Fixpoint encoder_rates (tr : list Event) : list Z :=
  match tr with
  | [] => []
  | VideoWriter_open _ _ r _ :: tr' => r :: encoder_rates tr'
  | _ :: tr' => encoder_rates tr'
  end.

(** The texts logged at a level. *)
Fixpoint logged (lvl : severity) (tr : list Event) : list string :=
  match tr with
  | [] => []
  | Log l m :: tr' =>
      match lvl, l with
      | INFO, INFO | ERROR, ERROR => m :: logged lvl tr'
      | _, _ => logged lvl tr'
      end
  | _ :: tr' => logged lvl tr'
  end.

(** ** [time.strftime] on the local time *)

Module Time.

(** The fields of [time.struct_time] that the format of the source reads. *)
Record struct_time := {
  tm_year : Z;
  tm_mon : Z;
  tm_mday : Z;
  tm_hour : Z;
  tm_min : Z;
  tm_sec : Z
}.

(** Proleptic Gregorian date of a day number counted from 1970-01-01. *)
Definition civil_from_days (z : Z) : Z * Z * Z :=
  let z := z + 719468 in
  let era := z / 146097 in
  let doe := z - era * 146097 in
  let yoe := (doe - doe / 1460 + doe / 36524 - doe / 146096) / 365 in
  let doy := doe - (365 * yoe + yoe / 4 - yoe / 100) in
  let mp := (5 * doy + 2) / 153 in
  let d := doy - (153 * mp + 2) / 5 + 1 in
  let m := if mp <? 10 then mp + 3 else mp - 9 in
  let y := yoe + era * 400 in
  (if m <=? 2 then y + 1 else y, m, d).

(** Day number of a proleptic Gregorian date. *)
Definition days_from_civil (ymd : Z * Z * Z) : Z :=
  let '(y, m, d) := ymd in
  let y := if m <=? 2 then y - 1 else y in
  let era := y / 400 in
  let yoe := y - era * 400 in
  let mp := if 2 <? m then m - 3 else m + 9 in
  let doy := (153 * mp + 2) / 5 + d - 1 in
  let doe := yoe * 365 + yoe / 4 - yoe / 100 + doy in
  era * 146097 + doe - 719468.

(** [time.gmtime(t)]: broken-down UTC time of [t] seconds since the epoch
    (POSIX time: every day has 86400 seconds). *)
Definition gmtime (t : Z) : struct_time :=
  let days := t / 86400 in
  let secs := t mod 86400 in
  let '(y, m, d) := civil_from_days days in
  {| tm_year := y; tm_mon := m; tm_mday := d;
     tm_hour := secs / 3600;
     tm_min := secs mod 3600 / 60;
     tm_sec := secs mod 60 |}.

(** [time.localtime(t)] in a time zone whose offset from UTC in force at the
    instant [t] is [utcoffset t] seconds. *)
Definition localtime (utcoffset : Z -> Z) (t : Z) : struct_time :=
  gmtime (t + utcoffset t).

Definition digit (n : Z) : ascii := ascii_of_nat (48 + Z.to_nat n).

(** A field printed as a decimal number zero-padded to two digits. *)
Definition pad2 (n : Z) : string :=
  String (digit (n / 10)) (String (digit (n mod 10)) EmptyString).

(** [time.strftime(fmt, t)] for the directives the source uses: [%Y] the
    year as a decimal number, [%m] [%d] [%H] [%M] [%S] month, day of month,
    hour, minute and second on two digits.  Any other character is copied. *)
Fixpoint strftime (fmt : string) (t : struct_time) : string :=
  match fmt with
  | EmptyString => EmptyString
  | String "%" (String "Y" fmt') => Py.str (tm_year t) ++ strftime fmt' t
  | String "%" (String "m" fmt') => pad2 (tm_mon t) ++ strftime fmt' t
  | String "%" (String "d" fmt') => pad2 (tm_mday t) ++ strftime fmt' t
  | String "%" (String "H" fmt') => pad2 (tm_hour t) ++ strftime fmt' t
  | String "%" (String "M" fmt') => pad2 (tm_min t) ++ strftime fmt' t
  | String "%" (String "S" fmt') => pad2 (tm_sec t) ++ strftime fmt' t
  | String c fmt' => String c (strftime fmt' t)
  end.

End Time.

(** ** The recording session *)

(** The attributes of an [ImageRecorder] object.  [bridge] holds no state
    of its own: its method is the decoder of the environment. *)
Record ImageRecorder := {
  topic_name : string;
  fps : Z;
  output_filename : option string;
  subscription : string * QoSProfile;
  frames : list Frame;
  recording : bool
}.

Definition set_frames (l : list Frame) (s : ImageRecorder) : ImageRecorder :=
  {| topic_name := topic_name s; fps := fps s;
     output_filename := output_filename s;
     subscription := subscription s;
     frames := l; recording := recording s |}.

Definition set_recording (b : bool) (s : ImageRecorder) : ImageRecorder :=
  {| topic_name := topic_name s; fps := fps s;
     output_filename := output_filename s;
     subscription := subscription s;
     frames := frames s; recording := b |}.

(** The exceptions of a run. *)
Inductive exn :=
| CvBridgeError (msg : Image)
| InvalidTopicNameException (topic : string)
| ValueError
| VideoWriter_raised (filename : string) (fps : Z) (frameSize : Z * Z).

(** How a call ends: it returns a value or raises. *)
Inductive completion (A : Type) :=
| Returned (a : A)
| Raised (e : exn).
Arguments Returned {A} a.
Arguments Raised {A} e.

(** A method of the recorder: from the object before the call to the way the
    call ends, the object after it and the effects it performed. *)
Definition Eff (A : Type) : Type :=
  ImageRecorder -> completion A * ImageRecorder * list Event.

Definition ret {A} (a : A) : Eff A := fun s => (Returned a, s, []).

Definition bind {A B} (m : Eff A) (k : A -> Eff B) : Eff B :=
  fun s =>
    match m s with
    | (Returned a, s1, tr1) =>
        let '(r, s2, tr2) := k a s1 in (r, s2, (tr1 ++ tr2)%list)
    | (Raised e, s1, tr1) => (Raised e, s1, tr1)
    end.

Definition raise {A} (e : exn) : Eff A := fun s => (Raised e, s, []).
Definition emit (ev : Event) : Eff unit := fun s => (Returned tt, s, [ev]).
Definition self {A} (field : ImageRecorder -> A) : Eff A :=
  fun s => (Returned (field s), s, []).

(** [self.frames = value] *)
Definition frames_assign (value : list Frame) : Eff unit :=
  fun s => (Returned tt, set_frames value s, [Frames_assign value]).

(** [self.frames.append(frame)] *)
Definition frames_append (frame : Frame) : Eff unit :=
  fun s => (Returned tt, set_frames (frames s ++ [frame])%list s,
            [Frames_append frame]).

(** [self.recording = value] *)
Definition recording_assign (value : bool) : Eff unit :=
  fun s => (Returned tt, set_recording value s, [Recording_assign value]).

Declare Scope eff_scope.
Delimit Scope eff_scope with eff.
Notation "x <- m ;; k" := (bind m (fun x => k))
  (at level 61, m at next level, right associativity) : eff_scope.
Notation "m ;; k" := (bind m (fun _ => k))
  (at level 61, right associativity) : eff_scope.

(** [for x in l: body(x)] *)
Fixpoint for_each {A} (l : list A) (body : A -> Eff unit) : Eff unit :=
  match l with
  | [] => ret tt
  | x :: l' => (body x ;; for_each l' body)%eff
  end.

Definition result_of {A} (o : completion A * ImageRecorder * list Event) :=
  fst (fst o).
Definition state_of {A} (o : completion A * ImageRecorder * list Event) :=
  snd (fst o).
Definition trace_of {A} (o : completion A * ImageRecorder * list Event) :=
  snd o.

(** ** The command line *)

(** What [parse_args] returns: the attributes of the namespace. *)
Record Namespace := {
  topic : string;
  fps_arg : Z;
  output : option string
}.

(** How [parse_args] ends.  [SystemExit] is the exit of the process that
    argparse performs itself, with status 2 after a usage error and status 0
    after printing the help.  [Unmodelled] marks the command lines this
    development does not describe (see [classify]). *)
Inductive parsed :=
| Parsed (cli_args : Namespace)
| SystemExit (status : Z)
| Unmodelled.

Inductive dest := Dest_topic | Dest_fps | Dest_output.

(** The way argparse reads one word of the command line, for the parser the
    source builds:
    - [Flag d]: one of the option strings given to [add_argument];
    - [Help]: [-h] or [--help], which argparse adds by itself;
    - [Arg]: a word read as a value: it does not start with [-], or is [-]
      alone, or is a negative number ([-] followed by digits only), which
      argparse takes as a value because no option of this parser looks like
      a negative number;
    - [Other]: any other word that starts with [-] ([--opt=value], a value
      attached to a short option, an abbreviated long option, [--], an
      unknown option) and any word with a character outside ASCII.  These
      are left out of the model. *)
Inductive word_class := Flag (d : dest) | Help | Arg | Other.

Fixpoint all_digits (s : string) : bool :=
  match s with
  | EmptyString => true
  | String c s' => Py.isdigit c && all_digits s'
  end.

Definition classify (word : string) : word_class :=
  if negb (Py.isascii word) then Other
  else if String.eqb word "-t" || String.eqb word "--topic" then Flag Dest_topic
  else if String.eqb word "-f" || String.eqb word "--fps" then Flag Dest_fps
  else if String.eqb word "-o" || String.eqb word "--output" then Flag Dest_output
  else if String.eqb word "-h" || String.eqb word "--help" then Help
  else
    match word with
    | String "-" EmptyString => Arg
    | String "-" rest => if all_digits rest then Arg else Other
    | _ => Arg
    end.

(** The store action of an option, with the conversion its [type] asks for.
    [None]: the conversion raised [ValueError]. *)
Definition store (d : dest) (value : string) (ns : Namespace)
  : option Namespace :=
  match d with
  | Dest_topic =>
      Some {| topic := value; fps_arg := fps_arg ns; output := output ns |}
  | Dest_fps =>
      match Py.int value with
      | Some n =>
          Some {| topic := topic ns; fps_arg := n; output := output ns |}
      | None => None
      end
  | Dest_output =>
      Some {| topic := topic ns; fps_arg := fps_arg ns;
              output := Some value |}
  end.

(** The words are read from left to right.  An option takes the next word,
    which must be a value.  A value that no option takes is an unrecognized
    argument, reported once all words are read ([extras]). *)
Fixpoint parse_words (ns : Namespace) (extras : bool) (argv : list string)
  : parsed :=
  match argv with
  | [] => if extras then SystemExit 2 else Parsed ns
  | word :: rest =>
      match classify word with
      | Other => Unmodelled
      | Help => SystemExit 0
      | Arg => parse_words ns true rest
      | Flag d =>
          match rest with
          | [] => SystemExit 2
          | value :: rest' =>
              match classify value with
              | Arg =>
                  match store d value ns with
                  | Some ns' => parse_words ns' extras rest'
                  | None => SystemExit 2
                  end
              | Other => Unmodelled
              | Flag _ | Help => SystemExit 2
              end
          end
      end
  end.

(** [parse_args], on the words after the program name. *)
Definition parse_args (argv : list string) : parsed :=
  parse_words
    {| topic := "/sensing/camera/traffic_light/image_raw";
       fps_arg := 8;
       output := None |}
    false argv.

(** ** The methods and [main] *)

(** [ImageRecorder.__init__]: the object built, or the exception raised,
    and the effects performed until then.  [create_subscription] raises for
    a topic name rclpy refuses; the f-string of the second log line raises
    for a frame rate [str] refuses. *)
Definition __init__ (w : Environment) (topic_name : string) (fps : Z)
    (output_filename : option string)
  : completion ImageRecorder * list Event :=
  let qos_profile :=
    {| reliability := BEST_EFFORT; history := KEEP_LAST; depth := 10 |} in
  if negb (create_subscription_returns w topic_name) then
    (Raised (InvalidTopicNameException topic_name),
     [ Create_subscription topic_name qos_profile ])
  else if Py.str_raises fps then
    (Raised ValueError,
     [ Create_subscription topic_name qos_profile;
       Frames_assign [];
       Recording_assign true;
       Log INFO ("Started recording images from topic: " ++ topic_name) ])
  else
    (Returned {| topic_name := topic_name;
                 fps := fps;
                 output_filename := output_filename;
                 subscription := (topic_name, qos_profile);
                 frames := [];
                 recording := true |},
     [ Create_subscription topic_name qos_profile;
       Frames_assign [];
       Recording_assign true;
       Log INFO ("Started recording images from topic: " ++ topic_name);
       Log INFO ("Frame rate set to: " ++ Py.str fps ++ " Hz");
       Log INFO "Press Ctrl+C to stop and save the video." ]).

(** [ImageRecorder.image_callback] *)
Definition image_callback (w : Environment) (msg : Image) : Eff unit :=
  (rec <- self recording ;;
   if negb rec then ret tt
   else
     emit (Imgmsg_to_cv2 msg "bgr8") ;;
     match imgmsg_to_cv2 w msg "bgr8" with
     | None => raise (CvBridgeError msg)
     | Some cv_image => frames_append cv_image
     end)%eff.

(** The output path [save_video] settles on (the [if] statement on
    [self.output_filename]), when the clock reads [now] seconds since the
    epoch. *)
Definition output_path (w : Environment) (name : option string) (now : Z)
  : string :=
  if Py.truthy_opt_str name then
    let output_path := Py.the_str name in
    if negb (Py.endswith output_path ".mp4")
    then output_path ++ ".mp4"
    else output_path
  else
    let timestamp :=
      Time.strftime "%Y%m%d-%H%M%S" (Time.localtime (utcoffset w) now) in
    "camera_record_" ++ timestamp ++ ".mp4".

(** [ImageRecorder.save_video], run when the clock reads [now].  When the
    constructor of the writer raises, the exception leaves the method at
    that line. *)
Definition save_video (w : Environment) (now : Z) : Eff unit :=
  (fs <- self frames ;;
   match fs with
   | [] => emit (Log ERROR "No frames recorded!")
   | frame0 :: _ =>
       let '(height, width) := shape2 frame0 in
       name <- self output_filename ;;
       let output_path := output_path w name now in
       let fourcc := VideoWriter_fourcc "m" "p" "4" "v" in
       rate <- self fps ;;
       emit (VideoWriter_open output_path fourcc rate (width, height)) ;;
       if VideoWriter_returns w output_path fourcc rate (width, height) then
         for_each fs (fun frame => emit (VideoWriter_write frame)) ;;
         emit VideoWriter_release ;;
         emit (Log INFO ("Video saved to " ++ output_path)) ;;
         frames_assign []
       else
         raise (VideoWriter_raised output_path rate (width, height))
   end)%eff.

(** What the process receives while it runs: a message of the topic, or
    Ctrl+C. *)
Inductive spin_event :=
| Deliver (msg : Image)
| KeyboardInterrupt.

Definition is_interrupt (ev : spin_event) : bool :=
  match ev with KeyboardInterrupt => true | Deliver _ => false end.

(** How [rclpy.spin] is left: by the interrupt; not at all when the
    interrupt never comes; by an interrupt that another one follows. *)
Inductive spin_end := Interrupted | Blocked | Interrupted_again.

(** [rclpy.spin(recorder)]: the callback runs once for each message, in the
    order of delivery, until the interrupt; an exception raised by the
    callback leaves [spin].  The messages that come after the interrupt are
    not dispatched, [spin] being left.  An interrupt that comes after the
    first would be raised at some line of the [except] or [finally] clause,
    which one depending on the time it comes: such a run is not described
    ([Interrupted_again]). *)
Fixpoint spin (w : Environment) (events : list spin_event) : Eff spin_end :=
  match events with
  | [] => ret Blocked
  | Deliver msg :: events' => (image_callback w msg ;; spin w events')%eff
  | KeyboardInterrupt :: events' =>
      if existsb is_interrupt events' then ret Interrupted_again
      else ret Interrupted
  end.

(** The [try] statement of [main] with its [except KeyboardInterrupt]
    clause. *)
Definition try_spin (w : Environment) (events : list spin_event) (now : Z)
  : Eff spin_end :=
  (e <- spin w events ;;
   match e with
   | Blocked => ret Blocked
   | Interrupted_again => ret Interrupted_again
   | Interrupted =>
       emit (Log INFO "Stopping recording and saving video...") ;;
       recording_assign false ;;
       save_video w now ;;
       ret Interrupted
   end)%eff.

(** How a run of the program ends: the process exits with a status; or it
    is still inside [spin]; or the run is one this development does not
    describe. *)
Inductive process_end :=
| Exit (status : Z)
| Spinning
| Not_modelled.

(** [main], run as the script: [argv] are the words of the command line,
    [events] what the process receives, [now] the clock when the video is
    saved.  The result is the end of the process, the recorder it leaves
    (when one was built) and the trace of the run.  The recorder is built
    before the [try] statement: an exception of [__init__] ends the process
    without the [finally] clause.  An exception that leaves the [try]
    statement ends it with status 1, after the [finally] clause. *)
Definition main (w : Environment) (argv : list string)
    (events : list spin_event) (now : Z)
  : process_end * option ImageRecorder * list Event :=
  match parse_args argv with
  | SystemExit status => (Exit status, None, [])
  | Unmodelled => (Not_modelled, None, [])
  | Parsed cli_args =>
      match __init__ w (topic cli_args) (fps_arg cli_args) (output cli_args)
      with
      | (Raised _, tr0) => (Exit 1, None, Rclpy_init :: tr0)
      | (Returned recorder, tr0) =>
          let '(r, recorder', tr1) := try_spin w events now recorder in
          let finally := [Destroy_node; Rclpy_shutdown] in
          match r with
          | Returned Blocked =>
              (Spinning, Some recorder', Rclpy_init :: tr0 ++ tr1)
          | Returned Interrupted_again =>
              (Not_modelled, Some recorder', Rclpy_init :: tr0 ++ tr1)
          | Returned Interrupted =>
              (Exit 0, Some recorder', Rclpy_init :: tr0 ++ tr1 ++ finally)
          | Raised _ =>
              (Exit 1, Some recorder', Rclpy_init :: tr0 ++ tr1 ++ finally)
          end
      end
  end%list.

(** ** Notions used in the statements *)

(** The recorder [__init__] returns when it returns. *)
Definition new_recorder (topic_name : string) (fps : Z)
    (output_filename : option string) : ImageRecorder :=
  {| topic_name := topic_name;
     fps := fps;
     output_filename := output_filename;
     subscription :=
       (topic_name,
        {| reliability := BEST_EFFORT; history := KEEP_LAST; depth := 10 |});
     frames := [];
     recording := true |}.

(** The effects of [__init__] when it returns. *)
Definition init_trace (topic_name : string) (fps : Z) : list Event :=
  [ Create_subscription topic_name
      {| reliability := BEST_EFFORT; history := KEEP_LAST; depth := 10 |};
    Frames_assign [];
    Recording_assign true;
    Log INFO ("Started recording images from topic: " ++ topic_name);
    Log INFO ("Frame rate set to: " ++ Py.str fps ++ " Hz");
    Log INFO "Press Ctrl+C to stop and save the video." ].

(** The constructor of the writer returns on the arguments [save_video]
    gives it for the recorder [s] at the time [now] (no call is made when
    [s] holds no frame). *)
Definition encoder_returns (w : Environment) (now : Z) (s : ImageRecorder)
  : bool :=
  match frames s with
  | [] => true
  | frame0 :: _ =>
      VideoWriter_returns w (output_path w (output_filename s) now)
        (VideoWriter_fourcc "m" "p" "4" "v") (fps s)
        (width frame0, height frame0)
  end.

(** [l1] is a prefix of [l2]. *)
Definition prefix_of {A} (l1 l2 : list A) : Prop :=
  exists ext, l2 = (l1 ++ ext)%list.

(** The two attributes that change, as the writes of a trace leave them:
    the list of frames, and the flag ([None] before its first write). *)
Definition attributes : Type := list Frame * option bool.

Definition write (ev : Event) (a : attributes) : attributes :=
  match ev with
  | Frames_assign value => (value, snd a)
  | Frames_append frame => ((fst a ++ [frame])%list, snd a)
  | Recording_assign value => (fst a, Some value)
  | _ => a
  end.

Definition replay (tr : list Event) (a : attributes) : attributes :=
  fold_left (fun a ev => write ev a) tr a.

(** The attributes of a recorder. *)
Definition attributes_of (s : ImageRecorder) : attributes :=
  (frames s, Some (recording s)).

(** Every write of the trace [tr], made from the attributes [a], that
    happens while the flag is set leaves the list it found as a prefix of
    the list it leaves. *)
Fixpoint append_only (a : attributes) (tr : list Event) : Prop :=
  match tr with
  | [] => True
  | ev :: tr' =>
      (snd a = Some true -> prefix_of (fst a) (fst (write ev a)))
      /\ append_only (write ev a) tr'
  end.

(** The output path for a configured name as the specification words it:
    the name with [.mp4] appended when it does not already end in [.mp4],
    the name itself when it does.  To be compared with [output_path]. *)
Definition spec_output_path (name : string) : string :=
  if Py.endswith name ".mp4" then name else name ++ ".mp4".


(** The effects of the callbacks on the messages [msgs] when they decode
    to the frames [fs]. *)
Fixpoint decoded_trace (msgs : list Image) (fs : list Frame) : list Event :=
  match msgs, fs with
  | m :: msgs', f :: fs' =>
      Imgmsg_to_cv2 m "bgr8" :: Frames_append f :: decoded_trace msgs' fs'
  | _, _ => []
  end.

(** The effects of [save_video] when the list holds [frame0 :: fs] and the
    constructor of the writer returns. *)
Definition saved_trace (path : string) (rate : Z) (frame0 : Frame)
    (fs : list Frame) : list Event :=
  (VideoWriter_open path (VideoWriter_fourcc "m" "p" "4" "v") rate
     (width frame0, height frame0)
   :: map VideoWriter_write (frame0 :: fs)
   ++ [VideoWriter_release; Log INFO ("Video saved to " ++ path);
       Frames_assign []])%list.
(** ** Auxiliary notions of the proofs *)

(** The value of a digit sequence read after [acc], most significant digit
    first. *)
Fixpoint horner (acc : Z) (d : uint) : Z :=
  match d with
  | Nil => acc
  | D0 d => horner (10 * acc + 0) d
  | D1 d => horner (10 * acc + 1) d
  | D2 d => horner (10 * acc + 2) d
  | D3 d => horner (10 * acc + 3) d
  | D4 d => horner (10 * acc + 4) d
  | D5 d => horner (10 * acc + 5) d
  | D6 d => horner (10 * acc + 6) d
  | D7 d => horner (10 * acc + 7) d
  | D8 d => horner (10 * acc + 8) d
  | D9 d => horner (10 * acc + 9) d
  end.

(** No character of the string is white space. *)
Fixpoint no_space (s : string) : bool :=
  match s with
  | EmptyString => true
  | String c s' => negb (Py.isspace c) && no_space s'
  end.

(** The fields of a broken-down time that are printed on two digits fit. *)
Definition two_digit_fields (t : Time.struct_time) : Prop :=
  0 <= Time.tm_mon t <= 99 /\ 0 <= Time.tm_mday t <= 99
  /\ 0 <= Time.tm_hour t <= 99 /\ 0 <= Time.tm_min t <= 99
  /\ 0 <= Time.tm_sec t <= 99.

Definition is_flag (c : word_class) : bool :=
  match c with Flag _ => true | _ => false end.

Definition is_arg (c : word_class) : bool :=
  match c with Arg => true | _ => false end.

(** The command line is a sequence of options, each followed by a value. *)
Fixpoint option_value_pairs (argv : list string) : bool :=
  match argv with
  | [] => true
  | flag :: rest =>
      match rest with
      | [] => false
      | value :: rest' =>
          is_flag (classify flag) && is_arg (classify value)
          && option_value_pairs rest'
      end
  end.

(** The command line starts with an option. *)
Definition starts_with_flag (argv : list string) : bool :=
  match argv with
  | [] => false
  | word :: _ => is_flag (classify word)
  end.

(** The word is an option or a value. *)
Definition flag_or_arg (word : string) : bool :=
  is_flag (classify word) || is_arg (classify word).

(** Two namespaces hold the same values but for the attribute [d]. *)
Definition agree_except (d : dest) (ns1 ns2 : Namespace) : Prop :=
  match d with
  | Dest_topic => fps_arg ns1 = fps_arg ns2 /\ output ns1 = output ns2
  | Dest_fps => topic ns1 = topic ns2 /\ output ns1 = output ns2
  | Dest_output => topic ns1 = topic ns2 /\ fps_arg ns1 = fps_arg ns2
  end.

(** The long spelling of an option given by its short one; any other word
    is left as it is. *)
Definition long_form (word : string) : string :=
  if String.eqb word "-t" then "--topic"
  else if String.eqb word "-f" then "--fps"
  else if String.eqb word "-o" then "--output"
  else if String.eqb word "-h" then "--help"
  else word.

(** The characters an integer literal read by [int] can hold: digits, the
    underscore, the two signs and white space. *)
Definition int_char (c : ascii) : bool :=
  Py.isdigit c || Ascii.eqb c "_" || Ascii.eqb c "+" || Ascii.eqb c "-"
  || Py.isspace c.

(** The subscriptions a trace creates. *)
Fixpoint subscriptions (tr : list Event) : list (string * QoSProfile) :=
  match tr with
  | [] => []
  | Create_subscription topic qos :: tr' => (topic, qos) :: subscriptions tr'
  | _ :: tr' => subscriptions tr'
  end.

(** The event is one a callback performs: a call of the decoder or an
    append to the list. *)
Definition of_callback (ev : Event) : bool :=
  match ev with
  | Imgmsg_to_cv2 _ _ | Frames_append _ => true
  | _ => false
  end.

(** Two recorders have the same configuration: topic, frame rate, output
    name and subscription. *)
Definition same_config (s s' : ImageRecorder) : Prop :=
  topic_name s' = topic_name s /\ fps s' = fps s
  /\ output_filename s' = output_filename s
  /\ subscription s' = subscription s.

(** The trace writes the list only by appending to it, and never writes
    the flag. *)
Fixpoint appends_only (tr : list Event) : bool :=
  match tr with
  | [] => true
  | Frames_assign _ :: _ | Recording_assign _ :: _ => false
  | _ :: tr' => appends_only tr'
  end.

(** The trace never writes the flag. *)
Fixpoint keeps_flag (tr : list Event) : bool :=
  match tr with
  | [] => true
  | Recording_assign _ :: _ => false
  | _ :: tr' => keeps_flag tr'
  end.

(** ** Sample data *)

(** A decoder for examples: a message whose encoding is [bgr8] and whose
    data has three bytes for each pixel is taken as it is; any other message
    is refused. *)
Definition bgr8_only (msg : Image) (desired_encoding : string)
  : option Frame :=
  if String.eqb (msg_encoding msg) desired_encoding
     && (Z.of_nat (List.length (msg_data msg))
         =? msg_height msg * msg_width msg * 3)
  then Some {| height := msg_height msg; width := msg_width msg;
               pixels := msg_data msg |}
  else None.

Definition sample_msg (b : Byte.byte) : Image :=
  {| msg_height := 1; msg_width := 1; msg_encoding := "bgr8";
     msg_is_bigendian := false; msg_step := 3; msg_data := [b; b; b] |}.

Definition sample_frame (b : Byte.byte) : Frame :=
  {| height := 1; width := 1; pixels := [b; b; b] |}.

Definition mono_msg : Image :=
  {| msg_height := 1; msg_width := 1; msg_encoding := "mono8";
     msg_is_bigendian := false; msg_step := 1; msg_data := [Byte.x00] |}.

(** Local time is UTC. *)
Definition utc (_ : Z) : Z := 0.

(** Central European time around the end of summer time in 2025: two hours
    ahead of UTC before 2025-10-26 01:00:00 UTC, one hour from then on. *)
Definition europe_berlin_2025 (t : Z) : Z :=
  if t <? 1761440400 then 7200 else 3600.

(** An environment for examples, with local time at the given offsets:
    the decoder [bgr8_only]; rclpy refuses the empty topic name; the
    constructor of the writer raises when the frame rate is no C double. *)
Definition sample_env (offsets : Z -> Z) : Environment :=
  {| imgmsg_to_cv2 := bgr8_only;
     utcoffset := offsets;
     create_subscription_returns := fun topic => negb (String.eqb topic "");
     VideoWriter_returns := fun _ _ fps _ => negb (Py.float_raises fps) |}.

(** A recorder as [__init__] leaves it, holding the given frames. *)
Definition sample_recorder (name : option string) (fs : list Frame)
  : ImageRecorder :=
  set_frames fs (new_recorder "/camera/image_raw" 8 name).

(** * Strings, numbers and dates *)

(** ** Strings *)

Section Strings.

Lemma length_append (s1 s2 : string) :
  String.length (s1 ++ s2) = (String.length s1 + String.length s2)%nat.
Proof. induction s1 as [|c s1 IH]; cbn; [|rewrite IH]; reflexivity. Qed.

Lemma append_assoc (s1 s2 s3 : string) : (s1 ++ s2) ++ s3 = s1 ++ s2 ++ s3.
Proof. induction s1 as [|c s1 IH]; cbn; [|rewrite IH]; reflexivity. Qed.

Lemma append_empty_r (s : string) : s ++ "" = s.
Proof. induction s as [|c s IH]; cbn; [|rewrite IH]; reflexivity. Qed.

(** Two equal concatenations whose left parts have the same length have the
    same parts. *)
Lemma append_inj_length_l (a1 a2 b1 b2 : string) :
  a1 ++ b1 = a2 ++ b2 -> String.length a1 = String.length a2 ->
  a1 = a2 /\ b1 = b2.
Proof.
  revert a2. induction a1 as [|c a1 IH]; intros [|c2 a2] Heq Hlen;
    cbn in *; try discriminate.
  - now split.
  - injection Heq as -> Heq. injection Hlen as Hlen.
    destruct (IH a2 Heq Hlen) as [-> ->]. now split.
Qed.

(** The same when the right parts have the same length. *)
Lemma append_inj_length_r (a1 a2 b1 b2 : string) :
  a1 ++ b1 = a2 ++ b2 -> String.length b1 = String.length b2 ->
  a1 = a2 /\ b1 = b2.
Proof.
  intros Heq Hlen. apply append_inj_length_l; [exact Heq|].
  apply (f_equal String.length) in Heq. rewrite !length_append in Heq. lia.
Qed.

Lemma substring_all (s : string) : substring 0 (String.length s) s = s.
Proof. induction s as [|c s IH]; cbn; [|rewrite IH]; reflexivity. Qed.

Lemma substring_skip (p s : string) (m : nat) :
  substring (String.length p) m (p ++ s) = substring 0 m s.
Proof. induction p as [|c p IH]; cbn; [reflexivity | exact IH]. Qed.

(** A string is its first [i] characters followed by the others. *)
Lemma substring_split (s : string) (i : nat) :
  (i <= String.length s)%nat ->
  s = substring 0 i s ++ substring i (String.length s - i) s.
Proof.
  revert i. induction s as [|c s IH]; intros [|i] Hi; cbn in *;
    try reflexivity; try lia.
  - rewrite substring_all. reflexivity.
  - rewrite <- (IH i) by lia. reflexivity.
Qed.

(** [endswith] holds exactly of the strings that are some stem followed by
    the suffix. *)
Lemma endswith_spec (s suffix : string) :
  Py.endswith s suffix = true <-> exists stem, s = stem ++ suffix.
Proof.
  unfold Py.endswith. rewrite andb_true_iff, Nat.leb_le, String.eqb_eq.
  split.
  - intros [Hle Hsub].
    exists (substring 0 (String.length s - String.length suffix) s).
    pose proof (substring_split s (String.length s - String.length suffix))
      as E.
    replace (String.length s - (String.length s - String.length suffix))%nat
      with (String.length suffix) in E by lia.
    rewrite Hsub in E. apply E. lia.
  - intros [stem ->]. rewrite length_append. split; [lia|].
    replace (String.length stem + String.length suffix
             - String.length suffix)%nat
      with (String.length stem) by lia.
    rewrite substring_skip. apply substring_all.
Qed.

End Strings.

(** ** [int] reads back what [str] prints, within the limit on digits *)

Section Decimal.

Lemma horner_pos d : forall p, horner (Z.pos p) d = Z.pos (Pos.of_uint_acc d p).
Proof.
  induction d as [|d IH|d IH|d IH|d IH|d IH|d IH|d IH|d IH|d IH|d IH];
    intros p; cbn [horner Pos.of_uint_acc]; [reflexivity|..];
    rewrite <- IH; f_equal; lia.
Qed.

Lemma horner_zero d : horner 0 d = Z.of_N (Pos.of_uint d).
Proof.
  induction d as [|d IH|d IH|d IH|d IH|d IH|d IH|d IH|d IH|d IH|d IH];
    cbn [horner Pos.of_uint]; [reflexivity | exact IH |..];
    cbn [Z.mul Z.add Z.of_N]; apply horner_pos.
Qed.

Lemma int_digits_after_digit d acc :
  Py.int_digits true acc (NilEmpty.string_of_uint d) = Some (horner acc d).
Proof.
  revert acc.
  induction d as [|d IH|d IH|d IH|d IH|d IH|d IH|d IH|d IH|d IH|d IH];
    intros acc; cbn [NilEmpty.string_of_uint Py.int_digits horner];
    [reflexivity|..]; cbn; apply IH.
Qed.

Lemma int_digits_uint d :
  d <> Nil ->
  Py.int_digits false 0 (NilEmpty.string_of_uint d) = Some (Z.of_N (Pos.of_uint d)).
Proof.
  intros Hd. rewrite <- horner_zero.
  destruct d; [contradiction|..];
    cbn [NilEmpty.string_of_uint Py.int_digits horner]; cbn;
    apply int_digits_after_digit.
Qed.

Lemma rstrip_no_space s : no_space s = true -> Py.rstrip s = s.
Proof.
  induction s as [|c s IH]; [reflexivity|]. cbn [no_space Py.rstrip].
  intros H. apply andb_true_iff in H as [Hc Hs]. rewrite (IH Hs).
  destruct s; [|reflexivity].
  apply negb_true_iff in Hc. rewrite Hc. reflexivity.
Qed.

Lemma strip_no_space s : no_space s = true -> Py.strip s = s.
Proof.
  intros H. unfold Py.strip. rewrite (rstrip_no_space s H).
  destruct s as [|c s]; [reflexivity|]. cbn in *.
  apply andb_true_iff in H as [Hc _]. apply negb_true_iff in Hc.
  rewrite Hc. reflexivity.
Qed.

Lemma uint_no_space d : no_space (NilEmpty.string_of_uint d) = true.
Proof. induction d; cbn; auto. Qed.

Lemma uint_all_digits d : all_digits (NilEmpty.string_of_uint d) = true.
Proof. induction d; cbn; auto. Qed.

Lemma uint_isascii d : Py.isascii (NilEmpty.string_of_uint d) = true.
Proof. induction d; cbn; auto. Qed.

Lemma str_pos p : Py.str (Z.pos p) = NilEmpty.string_of_uint (Pos.to_uint p).
Proof.
  unfold Py.str. cbn [Z.to_int NilZero.string_of_int NilZero.string_of_uint].
  pose proof (DecimalPos.Unsigned.to_uint_nonnil p) as Hn.
  destruct (Pos.to_uint p); [contradiction|..]; reflexivity.
Qed.

Lemma str_neg p :
  Py.str (Z.neg p) = String "-" (NilEmpty.string_of_uint (Pos.to_uint p)).
Proof.
  unfold Py.str. cbn [Z.to_int NilZero.string_of_int NilZero.string_of_uint].
  pose proof (DecimalPos.Unsigned.to_uint_nonnil p) as Hn.
  destruct (Pos.to_uint p); [contradiction|..]; reflexivity.
Qed.

Lemma int_value_of_digits d :
  d <> Nil ->
  Py.int_value (NilEmpty.string_of_uint d) = Some (Z.of_N (Pos.of_uint d))
  /\ Py.int_value (String "-" (NilEmpty.string_of_uint d))
     = Some (- Z.of_N (Pos.of_uint d)).
Proof.
  intros Hd. unfold Py.int_value. split.
  - rewrite strip_no_space by apply uint_no_space.
    rewrite <- (int_digits_uint d Hd).
    destruct d; [contradiction|..]; reflexivity.
  - rewrite strip_no_space by (cbn; apply uint_no_space).
    rewrite (int_digits_uint d Hd). reflexivity.
Qed.

(** The numeral of [n] holds the literal of [n]. *)
Lemma int_value_str n : Py.int_value (Py.str n) = Some n.
Proof.
  destruct n as [|p|p]; [reflexivity|..].
  - rewrite str_pos.
    rewrite (proj1 (int_value_of_digits _ (DecimalPos.Unsigned.to_uint_nonnil p))).
    rewrite DecimalPos.Unsigned.of_to. reflexivity.
  - rewrite str_neg.
    rewrite (proj2 (int_value_of_digits _ (DecimalPos.Unsigned.to_uint_nonnil p))).
    rewrite DecimalPos.Unsigned.of_to. reflexivity.
Qed.

Lemma str_inj n m : Py.str n = Py.str m -> n = m.
Proof.
  intros H. apply (f_equal Py.int_value) in H. rewrite !int_value_str in H.
  now injection H.
Qed.

(** A printed number is read as a value on the command line. *)
Lemma classify_str n : classify (Py.str n) = Arg.
Proof.
  destruct n as [|p|p]; [reflexivity|..].
  - rewrite str_pos. unfold classify. rewrite uint_isascii.
    pose proof (DecimalPos.Unsigned.to_uint_nonnil p) as Hn.
    destruct (Pos.to_uint p); [contradiction|..]; reflexivity.
  - rewrite str_neg. unfold classify.
    pose proof (DecimalPos.Unsigned.to_uint_nonnil p) as Hn.
    pose proof (uint_isascii (Pos.to_uint p)) as Ha.
    pose proof (uint_all_digits (Pos.to_uint p)) as Hd.
    destruct (Pos.to_uint p) as [|d|d|d|d|d|d|d|d|d|d]; [contradiction|..];
      cbn [NilEmpty.string_of_uint] in *;
      cbn [Py.isascii all_digits] in Ha, Hd;
      apply andb_true_iff in Ha as [_ Ha]; apply andb_true_iff in Hd as [_ Hd];
      cbn [Py.isascii]; rewrite Ha; cbn; rewrite Hd; reflexivity.
Qed.

Lemma count_digits_nonneg s : 0 <= Py.count_digits s.
Proof.
  induction s as [|c s IH]; cbn [Py.count_digits]; [lia|].
  destruct (Py.isdigit c); lia.
Qed.

Lemma digit_value_range c : Py.isdigit c = true -> 0 <= Py.digit_value c <= 9.
Proof.
  unfold Py.isdigit, Py.digit_value. intros H.
  apply andb_true_iff in H as [H1 H2].
  apply Nat.leb_le in H1, H2. lia.
Qed.

(** The value read lies between the value read so far, shifted by the
    digits that follow, and the next such value. *)
Lemma int_digits_bound s :
  forall after_digit acc n,
    0 <= acc -> Py.int_digits after_digit acc s = Some n ->
    acc * 10 ^ Py.count_digits s <= n < (acc + 1) * 10 ^ Py.count_digits s.
Proof.
  induction s as [|c s IH]; intros after_digit acc n Hacc.
  - cbn. destruct after_digit; [|discriminate]. intros [= <-]. lia.
  - cbn [Py.int_digits Py.count_digits].
    pose proof (count_digits_nonneg s) as Hc.
    destruct (Py.isdigit c) eqn:Hd.
    + intros H. pose proof (digit_value_range c Hd) as Hv.
      apply IH in H; [|lia].
      rewrite Z.pow_add_r by lia. change (10 ^ 1) with 10.
      assert (0 < 10 ^ Py.count_digits s) by (apply Z.pow_pos_nonneg; lia).
      nia.
    + destruct (Ascii.eqb c "_" && after_digit); [|discriminate].
      intros H. apply IH in H; [|lia]. cbn [Z.add]. exact H.
Qed.

Lemma uint_count_digits d :
  0 <= Py.count_digits (NilEmpty.string_of_uint d).
Proof. apply count_digits_nonneg. Qed.

(** The numeral of a positive number starts with a digit that is not 0. *)
Lemma to_uint_head p : forall d, Pos.to_uint p <> D0 d.
Proof.
  intros d H.
  pose proof (DecimalPos.Unsigned.to_of (Pos.to_uint p)) as E.
  rewrite DecimalPos.Unsigned.of_to in E. cbn [N.to_uint] in E.
  destruct (nzhead (Pos.to_uint p)) eqn:Hn.
  - unfold unorm in E. rewrite Hn in E.
    exact (DecimalPos.Unsigned.to_uint_nonzero p E).
  - rewrite unorm_nzhead in E by (rewrite Hn; discriminate).
    rewrite E in H. exact (nzhead_nonzero _ _ H).
  - rewrite unorm_nzhead in E by (rewrite Hn; discriminate).
    rewrite E in H. exact (nzhead_nonzero _ _ H).
  - rewrite unorm_nzhead in E by (rewrite Hn; discriminate).
    rewrite E in H. exact (nzhead_nonzero _ _ H).
  - rewrite unorm_nzhead in E by (rewrite Hn; discriminate).
    rewrite E in H. exact (nzhead_nonzero _ _ H).
  - rewrite unorm_nzhead in E by (rewrite Hn; discriminate).
    rewrite E in H. exact (nzhead_nonzero _ _ H).
  - rewrite unorm_nzhead in E by (rewrite Hn; discriminate).
    rewrite E in H. exact (nzhead_nonzero _ _ H).
  - rewrite unorm_nzhead in E by (rewrite Hn; discriminate).
    rewrite E in H. exact (nzhead_nonzero _ _ H).
  - rewrite unorm_nzhead in E by (rewrite Hn; discriminate).
    rewrite E in H. exact (nzhead_nonzero _ _ H).
  - rewrite unorm_nzhead in E by (rewrite Hn; discriminate).
    rewrite E in H. exact (nzhead_nonzero _ _ H).
  - rewrite unorm_nzhead in E by (rewrite Hn; discriminate).
    rewrite E in H. exact (nzhead_nonzero _ _ H).
Qed.

(** A positive number is at least the power of ten of its digits but
    one. *)
Lemma to_uint_digits p :
  10 ^ (Py.count_digits (NilEmpty.string_of_uint (Pos.to_uint p)) - 1)
  <= Z.pos p.
Proof.
  pose proof (DecimalPos.Unsigned.of_to p) as Hv.
  pose proof (to_uint_head p) as Hh.
  pose proof (DecimalPos.Unsigned.to_uint_nonnil p) as Hn.
  assert (Hz : Z.pos p = horner 0 (Pos.to_uint p))
    by (rewrite horner_zero, Hv; reflexivity).
  rewrite Hz. clear Hz Hv.
  destruct (Pos.to_uint p) as [|d|d|d|d|d|d|d|d|d|d];
    [contradiction | now elim (Hh d) |..];
    cbn [horner NilEmpty.string_of_uint Py.count_digits];
    match goal with
    | |- context [Py.isdigit ?c] => change (Py.isdigit c) with true
    end; cbn iota;
    match goal with
    | |- context [horner ?k d] =>
        pose proof (int_digits_bound _ true k _ ltac:(lia)
                      (int_digits_after_digit d k)) as [Hlo _];
        set (v := horner k d) in *
    end;
    pose proof (uint_count_digits d);
    set (c := Py.count_digits (NilEmpty.string_of_uint d)) in *;
    replace (1 + c - 1) with c by lia;
    assert (0 < 10 ^ c) by (apply Z.pow_pos_nonneg; lia);
    lia.
Qed.

(** A number [str] prints has at most [int_max_str_digits] digits. *)
Lemma str_count_digits n :
  Py.str_raises n = false ->
  Py.count_digits (Py.str n) <= Py.int_max_str_digits.
Proof.
  unfold Py.str_raises. intros H. apply Z.leb_gt in H.
  assert (Hp : forall p, Z.pos p < 10 ^ Py.int_max_str_digits ->
             Py.count_digits (NilEmpty.string_of_uint (Pos.to_uint p))
             <= Py.int_max_str_digits).
  { intros p Hlt. pose proof (to_uint_digits p) as Hd.
    pose proof (uint_count_digits (Pos.to_uint p)) as Hc.
    destruct (Z.le_gt_cases
                (Py.count_digits (NilEmpty.string_of_uint (Pos.to_uint p)))
                Py.int_max_str_digits) as [Hle|Hgt]; [exact Hle|].
    exfalso.
    assert (10 ^ Py.int_max_str_digits
            <= 10 ^ (Py.count_digits
                       (NilEmpty.string_of_uint (Pos.to_uint p)) - 1))
      by (apply Z.pow_le_mono_r; unfold Py.int_max_str_digits in *; lia).
    lia. }
  destruct n as [|p|p].
  - change (Py.count_digits (Py.str 0)) with 1.
    unfold Py.int_max_str_digits. lia.
  - rewrite str_pos. apply Hp. exact H.
  - rewrite str_neg. cbn [Py.count_digits]. cbn [Py.isdigit].
    change (Py.isdigit "-") with false. cbn iota.
    rewrite Z.add_0_l. apply Hp. exact H.
Qed.

(** [int(str(n)) == n] for every [n] that [str] prints. *)
Lemma int_str n : Py.str_raises n = false -> Py.int (Py.str n) = Some n.
Proof.
  intros H. unfold Py.int.
  assert (Hs : Py.strip (Py.str n) = Py.str n).
  { destruct n as [|p|p]; [reflexivity|..].
    - rewrite str_pos. apply strip_no_space, uint_no_space.
    - rewrite str_neg. apply strip_no_space. cbn. apply uint_no_space. }
  rewrite Hs.
  pose proof (str_count_digits n H) as Hc. apply Z.leb_le in Hc.
  rewrite Hc. apply int_value_str.
Qed.

(** A positive number is below the power of ten of its digits. *)
Lemma to_uint_digits_upper p :
  Z.pos p < 10 ^ Py.count_digits (NilEmpty.string_of_uint (Pos.to_uint p)).
Proof.
  pose proof (int_digits_uint (Pos.to_uint p)
                (DecimalPos.Unsigned.to_uint_nonnil p)) as H.
  rewrite DecimalPos.Unsigned.of_to in H. cbn [Z.of_N] in H.
  apply int_digits_bound in H; [|lia]. lia.
Qed.

(** A number [str] refuses has more than [int_max_str_digits] digits. *)
Lemma str_count_digits_big n :
  Py.str_raises n = true ->
  Py.int_max_str_digits < Py.count_digits (Py.str n).
Proof.
  unfold Py.str_raises. intros H. apply Z.leb_le in H.
  assert (Hp : forall p, 10 ^ Py.int_max_str_digits <= Z.pos p ->
             Py.int_max_str_digits
             < Py.count_digits (NilEmpty.string_of_uint (Pos.to_uint p))).
  { intros p Hle. pose proof (to_uint_digits_upper p) as Hu.
    pose proof (uint_count_digits (Pos.to_uint p)) as Hc.
    apply (Z.pow_lt_mono_r_iff 10); [lia | exact Hc | lia]. }
  destruct n as [|p|p].
  - exfalso. change (Z.abs 0) with 0 in H.
    assert (0 < 10 ^ Py.int_max_str_digits)
      by (apply Z.pow_pos_nonneg; unfold Py.int_max_str_digits; lia).
    lia.
  - rewrite str_pos. apply Hp. exact H.
  - rewrite str_neg. cbn [Py.count_digits].
    change (Py.isdigit "-") with false. cbn iota.
    rewrite Z.add_0_l. apply Hp. exact H.
Qed.

Lemma strip_str n : Py.strip (Py.str n) = Py.str n.
Proof.
  destruct n as [|p|p]; [reflexivity|..].
  - rewrite str_pos. apply strip_no_space, uint_no_space.
  - rewrite str_neg. apply strip_no_space. cbn. apply uint_no_space.
Qed.

(** [int] refuses the numeral of a number [str] refuses. *)
Lemma int_str_refused n : Py.str_raises n = true -> Py.int (Py.str n) = None.
Proof.
  intros H. unfold Py.int. rewrite strip_str.
  pose proof (str_count_digits_big n H) as Hc.
  destruct (Py.count_digits (Py.str n) <=? Py.int_max_str_digits) eqn:E;
    [apply Z.leb_le in E; lia | reflexivity].
Qed.

(** [int] written with tests on the first character. *)
Lemma int_value_by_sign s :
  Py.int_value s
  = match Py.strip s with
    | EmptyString => None
    | String a ds =>
        if Ascii.eqb a "-" then option_map Z.opp (Py.int_digits false 0 ds)
        else if Ascii.eqb a "+" then Py.int_digits false 0 ds
        else Py.int_digits false 0 (String a ds)
    end.
Proof.
  unfold Py.int_value. destruct (Py.strip s) as [|a ds]; [reflexivity|].
  destruct a as [[] [] [] [] [] [] [] []]; reflexivity.
Qed.

(** What [int] returns is a number [str] prints. *)
Lemma int_bounded s n : Py.int s = Some n -> Py.str_raises n = false.
Proof.
  unfold Py.int, Py.str_raises.
  destruct (Py.count_digits (Py.strip s) <=? Py.int_max_str_digits) eqn:Hc;
    [|discriminate].
  apply Z.leb_le in Hc. rewrite int_value_by_sign.
  destruct (Py.strip s) as [|a ds]; [discriminate|].
  cbn [Py.count_digits] in Hc.
  pose proof (count_digits_nonneg ds) as Hds.
  assert (Hb : forall t v, Py.count_digits t <= Py.int_max_str_digits ->
                           Py.int_digits false 0 t = Some v ->
                           0 <= v < 10 ^ Py.int_max_str_digits).
  { intros t v Ht Hv. apply int_digits_bound in Hv; [|lia].
    pose proof (count_digits_nonneg t).
    assert (10 ^ Py.count_digits t <= 10 ^ Py.int_max_str_digits)
      by (apply Z.pow_le_mono_r; lia).
    lia. }
  assert (Hds' : Py.count_digits ds <= Py.int_max_str_digits)
    by (destruct (Py.isdigit a); lia).
  intros H. apply Z.leb_gt.
  destruct (Ascii.eqb a "-").
  - destruct (Py.int_digits false 0 ds) as [v|] eqn:Hv; [|discriminate].
    injection H as <-. pose proof (Hb ds v Hds' Hv). lia.
  - destruct (Ascii.eqb a "+").
    + pose proof (Hb ds n Hds' H). lia.
    + pose proof (Hb (String a ds) n Hc H). lia.
Qed.

Lemma int_is_int_value s n : Py.int s = Some n -> Py.int_value s = Some n.
Proof.
  unfold Py.int. destruct (_ <=? _); [auto | discriminate].
Qed.

Lemma int_value_none s : Py.int_value s = None -> Py.int s = None.
Proof. unfold Py.int. intros ->. destruct (_ <=? _); reflexivity. Qed.

End Decimal.

(** ** The calendar *)

Section Calendar.

Import Time.

Local Ltac split_ifs :=
  repeat match goal with
         | |- context [if ?b then _ else _] => destruct b eqn:?
         end;
  rewrite ?Z.ltb_lt, ?Z.ltb_ge, ?Z.leb_le, ?Z.leb_gt in *.

(** The day number is recovered from the date. *)
Lemma days_from_civil_from_days z : days_from_civil (civil_from_days z) = z.
Proof.
  unfold civil_from_days, days_from_civil. cbv zeta.
  split_ifs; Z.div_mod_to_equations; lia.
Qed.

Lemma civil_from_days_inj z1 z2 :
  civil_from_days z1 = civil_from_days z2 -> z1 = z2.
Proof.
  intros H. apply (f_equal days_from_civil) in H.
  now rewrite !days_from_civil_from_days in H.
Qed.

Lemma civil_from_days_month_day z :
  1 <= snd (fst (civil_from_days z)) <= 12
  /\ 1 <= snd (civil_from_days z) <= 31.
Proof.
  unfold civil_from_days. cbv zeta. cbn [fst snd].
  split_ifs; Z.div_mod_to_equations; lia.
Qed.

(** From 1970-01-01 to 9999-12-31 the year has four digits. *)
Lemma civil_from_days_year z :
  0 <= z < 2932897 -> 1970 <= fst (fst (civil_from_days z)) <= 9999.
Proof.
  unfold civil_from_days. cbv zeta. intros H. cbn [fst].
  set (era := (z + 719468) / 146097).
  set (doe := z + 719468 - era * 146097).
  set (yoe := (doe - doe / 1460 + doe / 36524 - doe / 146096) / 365).
  set (doy := doe - (365 * yoe + yoe / 4 - yoe / 100)).
  set (mp := (5 * doy + 2) / 153).
  assert (He : 4 <= era <= 24) by (subst era; Z.div_mod_to_equations; lia).
  assert (Hdoe : 0 <= doe <= 146096)
    by (subst doe era; Z.div_mod_to_equations; lia).
  assert (Hy : 0 <= yoe <= 399 /\ 0 <= doy <= 365)
    by (subst doy yoe; Z.div_mod_to_equations; lia).
  assert (Hlo : era = 4 -> 135080 <= doe)
    by (subst doe era; Z.div_mod_to_equations; lia).
  assert (Hhi : era = 24 -> doe < 146037)
    by (subst doe era; Z.div_mod_to_equations; lia).
  assert (Hlo2 : 135080 <= doe -> 369 <= yoe /\ (yoe = 369 -> 10 <= mp))
    by (subst mp doy yoe; Z.div_mod_to_equations; lia).
  assert (Hhi2 : doe < 146037 -> yoe = 399 -> mp < 10)
    by (subst mp doy yoe; Z.div_mod_to_equations; lia).
  assert (Hmp : 0 <= mp <= 11) by (subst mp; Z.div_mod_to_equations; lia).
  destruct (mp <? 10) eqn:E1; cbv iota;
    match goal with
    | |- context [if ?b then _ else _] => destruct b eqn:E2
    end;
    rewrite ?Z.ltb_lt, ?Z.ltb_ge, ?Z.leb_le, ?Z.leb_gt in *; lia.
Qed.

Lemma gmtime_fields t :
  gmtime t
  = {| tm_year := fst (fst (civil_from_days (t / 86400)));
       tm_mon := snd (fst (civil_from_days (t / 86400)));
       tm_mday := snd (civil_from_days (t / 86400));
       tm_hour := t mod 86400 / 3600;
       tm_min := t mod 86400 mod 3600 / 60;
       tm_sec := t mod 86400 mod 60 |}.
Proof.
  unfold gmtime. destruct (civil_from_days (t / 86400)) as [[y m] d].
  reflexivity.
Qed.

(** Two instants with the same broken-down time are the same instant. *)
Lemma gmtime_inj t1 t2 : gmtime t1 = gmtime t2 -> t1 = t2.
Proof.
  rewrite !gmtime_fields. intros H.
  pose proof (f_equal tm_year H) as Hy. pose proof (f_equal tm_mon H) as Hm.
  pose proof (f_equal tm_mday H) as Hd. pose proof (f_equal tm_hour H) as Hh.
  pose proof (f_equal tm_min H) as Hmi. pose proof (f_equal tm_sec H) as Hs.
  cbn [tm_year tm_mon tm_mday tm_hour tm_min tm_sec] in Hy, Hm, Hd, Hh, Hmi, Hs.
  clear H.
  assert (Hdays : t1 / 86400 = t2 / 86400).
  { apply civil_from_days_inj. revert Hy Hm Hd.
    destruct (civil_from_days (t1 / 86400)) as [[y1 m1] d1].
    destruct (civil_from_days (t2 / 86400)) as [[y2 m2] d2].
    cbn [fst snd]. congruence. }
  revert Hh Hmi Hs Hdays. Z.div_mod_to_equations. lia.
Qed.

(** The fields printed on two digits are in their ranges. *)
Lemma gmtime_ranges t :
  1 <= tm_mon (gmtime t) <= 12 /\ 1 <= tm_mday (gmtime t) <= 31
  /\ 0 <= tm_hour (gmtime t) <= 23 /\ 0 <= tm_min (gmtime t) <= 59
  /\ 0 <= tm_sec (gmtime t) <= 59.
Proof.
  rewrite gmtime_fields. cbn [tm_mon tm_mday tm_hour tm_min tm_sec].
  pose proof (civil_from_days_month_day (t / 86400)) as [Hm Hd].
  repeat split; try apply Hm; try apply Hd; Z.div_mod_to_equations; lia.
Qed.

Lemma gmtime_year t :
  0 <= t < 253402300800 -> 1970 <= tm_year (gmtime t) <= 9999.
Proof.
  intros H. rewrite gmtime_fields. cbn [tm_year].
  apply civil_from_days_year. Z.div_mod_to_equations. lia.
Qed.

End Calendar.

(** ** The printed timestamp *)

Section Timestamp.

Import Time.

Lemma digit_inj a b :
  0 <= a <= 9 -> 0 <= b <= 9 -> digit a = digit b -> a = b.
Proof.
  intros Ha Hb H. unfold digit in H.
  apply (f_equal nat_of_ascii) in H.
  rewrite !nat_ascii_embedding in H by lia. lia.
Qed.

Lemma pad2_inj a b :
  0 <= a <= 99 -> 0 <= b <= 99 -> pad2 a = pad2 b -> a = b.
Proof.
  intros Ha Hb H. unfold pad2 in H. injection H as H1 H0.
  apply digit_inj in H1; [|Z.div_mod_to_equations; lia ..].
  apply digit_inj in H0; [|Z.div_mod_to_equations; lia ..].
  revert H1 H0. Z.div_mod_to_equations. lia.
Qed.

Lemma strftime_fields t :
  strftime "%Y%m%d-%H%M%S" t
  = Py.str (tm_year t) ++ pad2 (tm_mon t) ++ pad2 (tm_mday t) ++ "-"
    ++ pad2 (tm_hour t) ++ pad2 (tm_min t) ++ pad2 (tm_sec t).
Proof. cbn [strftime]. rewrite append_empty_r. reflexivity. Qed.

(** Two broken-down times printed alike are the same. *)
Lemma strftime_inj t1 t2 :
  two_digit_fields t1 -> two_digit_fields t2 ->
  strftime "%Y%m%d-%H%M%S" t1 = strftime "%Y%m%d-%H%M%S" t2 -> t1 = t2.
Proof.
  intros (Hm1 & Hd1 & Hh1 & Hmi1 & Hs1) (Hm2 & Hd2 & Hh2 & Hmi2 & Hs2) H.
  rewrite !strftime_fields in H.
  apply append_inj_length_r in H as [Hy H]; [|reflexivity].
  apply str_inj in Hy.
  apply append_inj_length_l in H as [Hm H]; [|reflexivity].
  apply append_inj_length_l in H as [Hd H]; [|reflexivity].
  apply append_inj_length_l in H as [_ H]; [|reflexivity].
  apply append_inj_length_l in H as [Hh H]; [|reflexivity].
  apply append_inj_length_l in H as [Hmi Hs]; [|reflexivity].
  apply pad2_inj in Hm, Hd, Hh, Hmi, Hs; try assumption.
  destruct t1, t2; cbn in *; congruence.
Qed.

Lemma four_digits_b :
  forallb (fun k => Nat.eqb (String.length (Py.str (1000 + Z.of_nat k))) 4)
          (seq 0 (Z.to_nat 9000)) = true.
Proof. vm_compute. reflexivity. Qed.

(** A year from 1000 to 9999 is printed on four digits. *)
Lemma str_four_digits y :
  1000 <= y <= 9999 -> String.length (Py.str y) = 4%nat.
Proof.
  intros Hy. pose proof four_digits_b as H.
  rewrite forallb_forall in H.
  specialize (H (Z.to_nat (y - 1000))).
  replace (1000 + Z.of_nat (Z.to_nat (y - 1000))) with y in H by lia.
  apply Nat.eqb_eq, H, in_seq. lia.
Qed.

Lemma strftime_length t :
  1000 <= tm_year t <= 9999 ->
  String.length (strftime "%Y%m%d-%H%M%S" t) = 15%nat.
Proof.
  intros Hy. rewrite strftime_fields, length_append, (str_four_digits _ Hy).
  reflexivity.
Qed.

End Timestamp.

(** * The methods and the run, equation by equation *)

(** ** What the projections of a trace see *)

Lemma written_frames_app tr1 tr2 :
  written_frames (tr1 ++ tr2) = (written_frames tr1 ++ written_frames tr2)%list.
Proof.
  induction tr1 as [|ev tr1 IH]; [reflexivity|].
  destruct ev; cbn; rewrite IH; reflexivity.
Qed.

Lemma written_frames_writes fs :
  written_frames (map VideoWriter_write fs) = fs.
Proof. induction fs as [|f fs IH]; cbn; [|rewrite IH]; reflexivity. Qed.

Lemma opened_files_app tr1 tr2 :
  opened_files (tr1 ++ tr2) = (opened_files tr1 ++ opened_files tr2)%list.
Proof.
  induction tr1 as [|ev tr1 IH]; [reflexivity|].
  destruct ev; cbn; rewrite IH; reflexivity.
Qed.

Lemma opened_files_writes fs : opened_files (map VideoWriter_write fs) = [].
Proof. induction fs as [|f fs IH]; cbn; [|rewrite IH]; reflexivity. Qed.

Lemma encoder_rates_app tr1 tr2 :
  encoder_rates (tr1 ++ tr2) = (encoder_rates tr1 ++ encoder_rates tr2)%list.
Proof.
  induction tr1 as [|ev tr1 IH]; [reflexivity|].
  destruct ev; cbn; rewrite IH; reflexivity.
Qed.

Lemma encoder_rates_writes fs : encoder_rates (map VideoWriter_write fs) = [].
Proof. induction fs as [|f fs IH]; cbn; [|rewrite IH]; reflexivity. Qed.

Lemma logged_app lvl tr1 tr2 :
  logged lvl (tr1 ++ tr2) = (logged lvl tr1 ++ logged lvl tr2)%list.
Proof.
  induction tr1 as [|ev tr1 IH]; [reflexivity|].
  destruct ev; cbn; try exact IH.
  destruct lvl, level; cbn; rewrite IH; reflexivity.
Qed.

Lemma logged_writes lvl fs : logged lvl (map VideoWriter_write fs) = [].
Proof. induction fs as [|f fs IH]; cbn; [|rewrite IH]; reflexivity. Qed.

Lemma subscriptions_app tr1 tr2 :
  subscriptions (tr1 ++ tr2) = (subscriptions tr1 ++ subscriptions tr2)%list.
Proof.
  induction tr1 as [|ev tr1 IH]; [reflexivity|].
  destruct ev; cbn; rewrite ?IH; reflexivity.
Qed.

Lemma subscriptions_writes fs : subscriptions (map VideoWriter_write fs) = [].
Proof. induction fs as [|f fs IH]; cbn; [|rewrite IH]; reflexivity. Qed.

(** A trace of callbacks opens no file, writes no frame, logs nothing and
    subscribes to nothing. *)
Lemma callback_trace tr :
  forallb of_callback tr = true ->
  opened_files tr = [] /\ written_frames tr = [] /\ subscriptions tr = []
  /\ encoder_rates tr = [] /\ (forall lvl, logged lvl tr = [])
  /\ appends_only tr = true
  /\ ~ In Destroy_node tr /\ ~ In Rclpy_shutdown tr.
Proof.
  induction tr as [|ev tr IH]; [cbn; tauto|].
  cbn [forallb]. intros H. apply andb_true_iff in H as [Hev Htr].
  specialize (IH Htr). destruct IH as (H1 & H2 & H3 & H4 & H5 & H6 & H7 & H8).
  destruct ev; try discriminate; cbn;
    (repeat split; auto; try (intros [E|E]; [discriminate | auto])).
Qed.

Lemma decoded_trace_of_callback msgs fs :
  forallb of_callback (decoded_trace msgs fs) = true.
Proof.
  revert fs. induction msgs as [|m msgs IH]; intros [|f fs]; cbn; auto.
Qed.

(** ** The methods, equation by equation *)

Section Methods.

Variable w : Environment.

Lemma set_frames_same s : set_frames (frames s) s = s.
Proof. destruct s; reflexivity. Qed.

Lemma for_each_write fs s :
  for_each fs (fun frame => emit (VideoWriter_write frame)) s
  = (Returned tt, s, map VideoWriter_write fs).
Proof.
  induction fs as [|f fs IH]; [reflexivity|].
  cbn [for_each]. unfold bind at 1. cbn [emit].
  rewrite IH. reflexivity.
Qed.

(** [__init__] returns when rclpy accepts the topic and [str] prints the
    frame rate. *)
Lemma init_returns topic_name fps output_filename :
  create_subscription_returns w topic_name = true ->
  Py.str_raises fps = false ->
  __init__ w topic_name fps output_filename
  = (Returned (new_recorder topic_name fps output_filename),
     init_trace topic_name fps).
Proof.
  intros Ht Hf. unfold __init__. rewrite Ht, Hf. reflexivity.
Qed.

(** [__init__] raises on a topic rclpy refuses, before anything is logged. *)
Lemma init_refused topic_name fps output_filename :
  create_subscription_returns w topic_name = false ->
  __init__ w topic_name fps output_filename
  = (Raised (InvalidTopicNameException topic_name),
     [Create_subscription topic_name
        {| reliability := BEST_EFFORT; history := KEEP_LAST; depth := 10 |}]).
Proof. intros Ht. unfold __init__. rewrite Ht. reflexivity. Qed.

(** With the flag cleared the callback returns at once. *)
Lemma image_callback_off msg s :
  recording s = false ->
  image_callback w msg s = (Returned tt, s, []).
Proof.
  intros Hrec. unfold image_callback, bind, self. rewrite Hrec. reflexivity.
Qed.

(** With the flag set, a message that decodes adds its frame at the end. *)
Lemma image_callback_appends msg cv_image s :
  recording s = true ->
  imgmsg_to_cv2 w msg "bgr8" = Some cv_image ->
  image_callback w msg s
  = (Returned tt, set_frames (frames s ++ [cv_image]) s,
     [Imgmsg_to_cv2 msg "bgr8"; Frames_append cv_image]).
Proof.
  intros Hrec Hdec. unfold image_callback, bind, self.
  rewrite Hrec. cbn. rewrite Hdec. reflexivity.
Qed.

(** With the flag set, a message that does not decode raises and leaves the
    recorder as it was. *)
Lemma image_callback_raises msg s :
  recording s = true ->
  imgmsg_to_cv2 w msg "bgr8" = None ->
  image_callback w msg s
  = (Raised (CvBridgeError msg), s, [Imgmsg_to_cv2 msg "bgr8"]).
Proof.
  intros Hrec Hdec. unfold image_callback, bind, self.
  rewrite Hrec. cbn. rewrite Hdec. reflexivity.
Qed.

(** [save_video] on an empty list of frames. *)
Lemma save_video_no_frames now s :
  frames s = [] ->
  save_video w now s = (Returned tt, s, [Log ERROR "No frames recorded!"]).
Proof.
  intros Hfs. unfold save_video, bind, self. rewrite Hfs. reflexivity.
Qed.

(** [save_video] on a list that holds a frame, when the constructor of the
    writer returns. *)
Lemma save_video_some_frames now s frame0 fs :
  frames s = frame0 :: fs ->
  encoder_returns w now s = true ->
  save_video w now s
  = (Returned tt, set_frames [] s,
     saved_trace (output_path w (output_filename s) now) (fps s) frame0 fs).
Proof.
  intros Hfs Hret. unfold encoder_returns in Hret. rewrite Hfs in Hret.
  unfold save_video. unfold bind at 1. unfold self at 1.
  rewrite Hfs. cbn [shape2 fst snd].
  unfold bind at 1. unfold self at 1.
  unfold bind at 1. unfold self at 1.
  unfold bind at 1. cbn [emit].
  rewrite Hret.
  unfold bind at 1. rewrite for_each_write.
  unfold bind, emit, frames_assign, saved_trace. reflexivity.
Qed.

(** [save_video] on a list that holds a frame, when the constructor of the
    writer raises: the call is all that happened. *)
Lemma save_video_raises now s frame0 fs :
  frames s = frame0 :: fs ->
  encoder_returns w now s = false ->
  save_video w now s
  = (Raised (VideoWriter_raised (output_path w (output_filename s) now)
               (fps s) (width frame0, height frame0)),
     s,
     [VideoWriter_open (output_path w (output_filename s) now)
        (VideoWriter_fourcc "m" "p" "4" "v") (fps s)
        (width frame0, height frame0)]).
Proof.
  intros Hfs Hret. unfold encoder_returns in Hret. rewrite Hfs in Hret.
  unfold save_video. unfold bind at 1. unfold self at 1.
  rewrite Hfs. cbn [shape2 fst snd].
  unfold bind at 1. unfold self at 1.
  unfold bind at 1. unfold self at 1.
  unfold bind at 1. cbn [emit].
  rewrite Hret. reflexivity.
Qed.

(** [save_video] returns exactly when the constructor of the writer does. *)
Lemma save_video_result now s :
  result_of (save_video w now s)
  = if encoder_returns w now s then Returned tt
    else Raised (VideoWriter_raised (output_path w (output_filename s) now)
                   (fps s)
                   match frames s with
                   | [] => (0, 0)
                   | frame0 :: _ => (width frame0, height frame0)
                   end).
Proof.
  destruct (frames s) as [|f fs] eqn:Hfs.
  - rewrite save_video_no_frames by assumption.
    unfold encoder_returns. rewrite Hfs. reflexivity.
  - destruct (encoder_returns w now s) eqn:Hret.
    + rewrite (save_video_some_frames _ _ _ _ Hfs Hret). reflexivity.
    + rewrite (save_video_raises _ _ _ _ Hfs Hret). reflexivity.
Qed.

(** One call of [save_video] calls the constructor of the writer once, on
    the output path, when the list holds a frame. *)
Lemma save_video_opened_files now s :
  frames s <> [] ->
  opened_files (trace_of (save_video w now s))
  = [output_path w (output_filename s) now].
Proof.
  intros Hfs. destruct (frames s) as [|f fs] eqn:E; [contradiction|].
  destruct (encoder_returns w now s) eqn:Hret.
  - rewrite (save_video_some_frames now s f fs E Hret).
    unfold trace_of, saved_trace. cbn [snd opened_files].
    change (VideoWriter_write f :: map VideoWriter_write fs)
      with (map VideoWriter_write (f :: fs)).
    rewrite opened_files_app, opened_files_writes. reflexivity.
  - rewrite (save_video_raises now s f fs E Hret). reflexivity.
Qed.

(** The frame rate [save_video] gives the constructor of the writer. *)
Lemma save_video_rate now s :
  frames s <> [] ->
  encoder_rates (trace_of (save_video w now s)) = [fps s].
Proof.
  intros Hfs. destruct (frames s) as [|f fs] eqn:E; [contradiction|].
  destruct (encoder_returns w now s) eqn:Hret.
  - rewrite (save_video_some_frames now s f fs E Hret).
    unfold trace_of, saved_trace. cbn [snd encoder_rates].
    change (VideoWriter_write f :: map VideoWriter_write fs)
      with (map VideoWriter_write (f :: fs)).
    rewrite encoder_rates_app, encoder_rates_writes. reflexivity.
  - rewrite (save_video_raises now s f fs E Hret). reflexivity.
Qed.

(** The frames [save_video] writes are the frames held, front to back,
    when the constructor of the writer returns, and none when it raises. *)
Lemma save_video_writes now s :
  written_frames (trace_of (save_video w now s))
  = if encoder_returns w now s then frames s else [].
Proof.
  destruct (frames s) as [|f fs] eqn:Hfs.
  - rewrite save_video_no_frames by assumption.
    destruct (encoder_returns w now s); reflexivity.
  - destruct (encoder_returns w now s) eqn:Hret.
    + rewrite (save_video_some_frames _ _ _ _ Hfs Hret).
      unfold trace_of, saved_trace. cbn [snd written_frames].
      change (VideoWriter_write f :: map VideoWriter_write fs)
        with (map VideoWriter_write (f :: fs)).
      rewrite written_frames_app, written_frames_writes.
      cbn. rewrite List.app_nil_r. reflexivity.
    + rewrite (save_video_raises _ _ _ _ Hfs Hret). reflexivity.
Qed.

(** The lines [save_video] logs as information. *)
Lemma save_video_logged_info now s :
  logged INFO (trace_of (save_video w now s))
  = match frames s with
    | [] => []
    | _ :: _ =>
        if encoder_returns w now s
        then ["Video saved to " ++ output_path w (output_filename s) now]
        else []
    end.
Proof.
  destruct (frames s) as [|f fs] eqn:Hfs.
  - rewrite save_video_no_frames by assumption. reflexivity.
  - destruct (encoder_returns w now s) eqn:Hret.
    + rewrite (save_video_some_frames _ _ _ _ Hfs Hret).
      unfold trace_of, saved_trace. cbn [snd logged].
      change (VideoWriter_write f :: map VideoWriter_write fs)
        with (map VideoWriter_write (f :: fs)).
      rewrite logged_app, logged_writes. reflexivity.
    + rewrite (save_video_raises _ _ _ _ Hfs Hret). reflexivity.
Qed.

(** [save_video] subscribes to nothing and ends no node. *)
Lemma save_video_quiet now s :
  subscriptions (trace_of (save_video w now s)) = []
  /\ ~ In Destroy_node (trace_of (save_video w now s))
  /\ ~ In Rclpy_shutdown (trace_of (save_video w now s)).
Proof.
  destruct (frames s) as [|f fs] eqn:Hfs.
  - rewrite save_video_no_frames by assumption. cbn.
    repeat split; intros [E|[]]; discriminate.
  - destruct (encoder_returns w now s) eqn:Hret.
    + rewrite (save_video_some_frames _ _ _ _ Hfs Hret).
      unfold trace_of, saved_trace. cbn [snd subscriptions].
      change (VideoWriter_write f :: map VideoWriter_write fs)
        with (map VideoWriter_write (f :: fs)).
      rewrite subscriptions_app, subscriptions_writes.
      split; [reflexivity|].
      split; intros [E|E]; try discriminate;
        apply in_app_or in E as [E|E];
        try (apply in_map_iff in E as (x & E & _); discriminate);
        cbn in E; intuition discriminate.
    + rewrite (save_video_raises _ _ _ _ Hfs Hret). cbn.
      repeat split; intros [E|[]]; discriminate.
Qed.

(** The recorder [save_video] leaves: drained when it returned, the one
    before when it raised. *)
Lemma save_video_state now s :
  state_of (save_video w now s)
  = if encoder_returns w now s then set_frames [] s else s.
Proof.
  destruct (frames s) as [|f fs] eqn:Hfs.
  - rewrite save_video_no_frames by assumption.
    unfold encoder_returns. rewrite Hfs. cbn.
    rewrite <- Hfs. symmetry. apply set_frames_same.
  - destruct (encoder_returns w now s) eqn:Hret.
    + rewrite (save_video_some_frames _ _ _ _ Hfs Hret). reflexivity.
    + rewrite (save_video_raises _ _ _ _ Hfs Hret). reflexivity.
Qed.

End Methods.
(** ** What [spin] and the two methods leave alone *)

Lemma prefix_of_refl {A} (l : list A) : prefix_of l l.
Proof. exists []. symmetry. apply List.app_nil_r. Qed.

Lemma prefix_of_trans {A} (l1 l2 l3 : list A) :
  prefix_of l1 l2 -> prefix_of l2 l3 -> prefix_of l1 l3.
Proof.
  intros [e1 ->] [e2 ->]. exists (e1 ++ e2)%list. symmetry. apply List.app_assoc.
Qed.

Lemma same_config_refl s : same_config s s.
Proof. repeat split. Qed.

Lemma same_config_trans s1 s2 s3 :
  same_config s1 s2 -> same_config s2 s3 -> same_config s1 s3.
Proof.
  unfold same_config. intros (A1 & A2 & A3 & A4) (B1 & B2 & B3 & B4).
  repeat split; congruence.
Qed.

Section Run.

Variable w : Environment.

(** The callback changes neither the configuration nor the flag, keeps the
    frames it finds, and performs only its own two effects. *)
Lemma image_callback_keeps msg s :
  same_config s (state_of (image_callback w msg s))
  /\ recording (state_of (image_callback w msg s)) = recording s
  /\ prefix_of (frames s) (frames (state_of (image_callback w msg s)))
  /\ forallb of_callback (trace_of (image_callback w msg s)) = true.
Proof.
  destruct (recording s) eqn:Hrec.
  - destruct (imgmsg_to_cv2 w msg "bgr8") as [f|] eqn:Hdec.
    + rewrite (image_callback_appends _ _ _ _ Hrec Hdec).
      split; [repeat split|]. split; [exact Hrec|].
      split; [now exists [f] | reflexivity].
    + rewrite (image_callback_raises _ _ _ Hrec Hdec).
      split; [repeat split|]. split; [exact Hrec|].
      split; [apply prefix_of_refl | reflexivity].
  - rewrite image_callback_off by exact Hrec.
    split; [repeat split|]. split; [exact Hrec|].
    split; [apply prefix_of_refl | reflexivity].
Qed.

(** [save_video] changes neither the configuration nor the flag. *)
Lemma save_video_keeps now s :
  same_config s (state_of (save_video w now s))
  /\ recording (state_of (save_video w now s)) = recording s.
Proof.
  rewrite save_video_state.
  destruct (encoder_returns w now s); split; repeat split.
Qed.

(** The flag plays no part in [save_video]. *)
Lemma encoder_returns_set_recording now b s :
  encoder_returns w now (set_recording b s) = encoder_returns w now s.
Proof. reflexivity. Qed.

(** One equation of [spin] for a delivery, on the three components. *)
Lemma spin_deliver msg events s :
  spin w (Deliver msg :: events) s
  = match image_callback w msg s with
    | (Returned _, s1, tr1) =>
        (result_of (spin w events s1),
         state_of (spin w events s1),
         tr1 ++ trace_of (spin w events s1))%list
    | (Raised e, s1, tr1) => (Raised e, s1, tr1)
    end.
Proof.
  cbn [spin]. unfold bind.
  destruct (image_callback w msg s) as [[[a|e] s1] tr1];
    [|reflexivity].
  unfold result_of, state_of, trace_of.
  destruct (spin w events s1) as [[r s2] tr2]. reflexivity.
Qed.

(** What [spin] keeps, whatever it receives: the configuration, the flag,
    the frames already held (as a prefix); and its trace is made of the
    effects of callbacks. *)
Lemma spin_keeps events :
  forall s,
    same_config s (state_of (spin w events s))
    /\ recording (state_of (spin w events s)) = recording s
    /\ prefix_of (frames s) (frames (state_of (spin w events s)))
    /\ forallb of_callback (trace_of (spin w events s)) = true.
Proof.
  induction events as [|ev events IH]; intros s.
  - cbn. repeat split. apply prefix_of_refl.
  - destruct ev as [msg|].
    + rewrite spin_deliver.
      pose proof (image_callback_keeps msg s) as (Hc & Hr & Hp & Ht).
      destruct (image_callback w msg s) as [[[a|e] s1] tr1];
        unfold state_of, trace_of in Hc, Hr, Hp, Ht; cbn [fst snd] in *.
      * destruct (IH s1) as (Hc' & Hr' & Hp' & Ht').
        unfold state_of, trace_of in *. cbn [fst snd].
        split; [exact (same_config_trans _ _ _ Hc Hc')|].
        split; [congruence|].
        split; [exact (prefix_of_trans _ _ _ Hp Hp')|].
        rewrite forallb_app, Ht, Ht'. reflexivity.
      * unfold state_of, trace_of. cbn [fst snd]. auto.
    + cbn [spin]. destruct (existsb is_interrupt events);
        cbn; repeat split; apply prefix_of_refl.
Qed.

(** Without the interrupt among the events, [spin] blocks or raises. *)
Lemma spin_not_interrupted events :
  ~ In KeyboardInterrupt events ->
  forall s, result_of (spin w events s) = Returned Blocked
            \/ exists e, result_of (spin w events s) = Raised e.
Proof.
  induction events as [|ev events IH]; intros Hin s.
  - cbn. now left.
  - destruct ev as [msg|]; [|elim Hin; now left].
    rewrite spin_deliver.
    destruct (image_callback w msg s) as [[[a|e] s1] tr1].
    + unfold result_of at 1 2. cbn [fst]. apply IH.
      intros H. apply Hin. now right.
    + cbn. right. now exists e.
Qed.

(** [spin] is left by the interrupt only when there is one. *)
Lemma spin_interrupted_in events :
  forall s,
    result_of (spin w events s) = Returned Interrupted ->
    In KeyboardInterrupt events.
Proof.
  induction events as [|ev events IH]; intros s; [discriminate|].
  destruct ev as [msg|]; [|now left].
  rewrite spin_deliver.
  destruct (image_callback w msg s) as [[[a|e] s1] tr1].
  - unfold result_of at 1. cbn [fst]. intros H. right. exact (IH s1 H).
  - discriminate.
Qed.

(** [spin] over messages that all decode, ended by the interrupt. *)
Lemma spin_deliveries msgs fs s :
  recording s = true ->
  Forall2 (fun m f => imgmsg_to_cv2 w m "bgr8" = Some f) msgs fs ->
  spin w (map Deliver msgs ++ [KeyboardInterrupt]) s
  = (Returned Interrupted, set_frames (frames s ++ fs) s,
     decoded_trace msgs fs).
Proof.
  intros Hrec Hall. revert s Hrec.
  induction Hall as [|m f msgs fs Hdec Hall IH]; intros s Hrec.
  - cbn. rewrite List.app_nil_r, set_frames_same. reflexivity.
  - cbn [map]. rewrite <- app_comm_cons. rewrite spin_deliver.
    rewrite (image_callback_appends _ _ _ _ Hrec Hdec).
    rewrite IH by exact Hrec. unfold result_of, state_of, trace_of.
    cbn [fst snd frames set_frames decoded_trace List.app].
    rewrite <- List.app_assoc. reflexivity.
Qed.

(** [spin] over messages that all decode, with no interrupt. *)
Lemma spin_blocked msgs fs s :
  recording s = true ->
  Forall2 (fun m f => imgmsg_to_cv2 w m "bgr8" = Some f) msgs fs ->
  spin w (map Deliver msgs) s
  = (Returned Blocked, set_frames (frames s ++ fs) s, decoded_trace msgs fs).
Proof.
  intros Hrec Hall. revert s Hrec.
  induction Hall as [|m f msgs fs Hdec Hall IH]; intros s Hrec.
  - cbn. rewrite List.app_nil_r, set_frames_same. reflexivity.
  - cbn [map]. rewrite spin_deliver.
    rewrite (image_callback_appends _ _ _ _ Hrec Hdec).
    rewrite IH by exact Hrec. unfold result_of, state_of, trace_of.
    cbn [fst snd frames set_frames decoded_trace List.app].
    rewrite <- List.app_assoc. reflexivity.
Qed.

(** [spin] over messages that decode, then one that does not. *)
Lemma spin_raises msgs fs bad rest s :
  recording s = true ->
  Forall2 (fun m f => imgmsg_to_cv2 w m "bgr8" = Some f) msgs fs ->
  imgmsg_to_cv2 w bad "bgr8" = None ->
  spin w (map Deliver msgs ++ Deliver bad :: rest) s
  = (Raised (CvBridgeError bad), set_frames (frames s ++ fs) s,
     decoded_trace msgs fs ++ [Imgmsg_to_cv2 bad "bgr8"])%list.
Proof.
  intros Hrec Hall Hbad. revert s Hrec.
  induction Hall as [|m f msgs fs Hdec Hall IH]; intros s Hrec.
  - cbn [map]. rewrite !List.app_nil_l. rewrite spin_deliver.
    rewrite (image_callback_raises _ _ _ Hrec Hbad).
    rewrite List.app_nil_r, set_frames_same. reflexivity.
  - cbn [map]. rewrite <- !app_comm_cons. rewrite spin_deliver.
    rewrite (image_callback_appends _ _ _ _ Hrec Hdec).
    rewrite IH by exact Hrec. unfold result_of, state_of, trace_of.
    cbn [fst snd frames set_frames decoded_trace List.app].
    rewrite <- List.app_assoc. reflexivity.
Qed.

(** ** The interrupt *)

(** Once [spin] is left by the interrupt, the [except] clause logs, clears
    the flag and calls [save_video] on the recorder with the flag cleared;
    an exception of [save_video] leaves the clause. *)
Lemma try_spin_interrupted events now s s1 tr1 :
  spin w events s = (Returned Interrupted, s1, tr1) ->
  try_spin w events now s
  = (match result_of (save_video w now (set_recording false s1)) with
     | Returned _ => Returned Interrupted
     | Raised e => Raised e
     end,
     state_of (save_video w now (set_recording false s1)),
     tr1 ++ Log INFO "Stopping recording and saving video..."
         :: Recording_assign false
         :: trace_of (save_video w now (set_recording false s1)))%list.
Proof.
  intros Hspin. unfold try_spin. unfold bind at 1. rewrite Hspin.
  unfold bind, emit, recording_assign, ret, result_of, state_of, trace_of.
  destruct (save_video w now (set_recording false s1)) as [[[[]|e] s2] tr2];
    cbn; rewrite ?List.app_nil_r; reflexivity.
Qed.

(** When [spin] is left otherwise, the [except] clause does not run. *)
Lemma try_spin_not_interrupted events now s r s1 tr1 :
  spin w events s = (r, s1, tr1) ->
  r <> Returned Interrupted ->
  try_spin w events now s = (r, s1, tr1).
Proof.
  intros Hspin Hr. unfold try_spin. unfold bind at 1. rewrite Hspin.
  destruct r as [[| |]|e]; [contradiction| | |reflexivity];
    cbn; rewrite List.app_nil_r; reflexivity.
Qed.

(** A frame rate read from the command line is one [str] prints. *)
Lemma parse_words_fps argv :
  forall ns extras cli_args,
    Py.str_raises (fps_arg ns) = false ->
    parse_words ns extras argv = Parsed cli_args ->
    Py.str_raises (fps_arg cli_args) = false.
Proof.
  assert (Hlen : forall n argv, (List.length argv <= n)%nat ->
            forall ns extras cli_args,
              Py.str_raises (fps_arg ns) = false ->
              parse_words ns extras argv = Parsed cli_args ->
              Py.str_raises (fps_arg cli_args) = false).
  { clear argv. induction n as [|n IH]; intros argv Hn ns extras cli Hns.
    - destruct argv; [|cbn in Hn; lia]. cbn.
      destruct extras; [discriminate|]. intros [= <-]. exact Hns.
    - destruct argv as [|word rest].
      + cbn. destruct extras; [discriminate|]. intros [= <-]. exact Hns.
      + cbn [parse_words]. cbn [List.length] in Hn.
        destruct (classify word) as [d| | |]; try discriminate.
        * destruct rest as [|value rest']; [discriminate|].
          destruct (classify value); try discriminate.
          destruct (store d value ns) as [ns'|] eqn:Hst; [|discriminate].
          apply IH; [cbn [List.length] in Hn; lia|].
          destruct d; cbn in Hst.
          -- injection Hst as <-. exact Hns.
          -- destruct (Py.int value) as [v|] eqn:Hv; [|discriminate].
             injection Hst as <-. cbn. exact (int_bounded _ _ Hv).
          -- injection Hst as <-. exact Hns.
        * apply IH; [lia | exact Hns]. }
  intros ns extras cli. exact (Hlen (List.length argv) argv (le_n _) ns extras cli).
Qed.

Lemma parse_args_fps_bounded argv cli_args :
  parse_args argv = Parsed cli_args ->
  Py.str_raises (fps_arg cli_args) = false.
Proof. apply parse_words_fps. reflexivity. Qed.

(** [main] when rclpy refuses the topic: the exception of [__init__] ends
    the process before the [try] statement is entered. *)
Lemma main_refused argv cli_args events now :
  parse_args argv = Parsed cli_args ->
  create_subscription_returns w (topic cli_args) = false ->
  main w argv events now
  = (Exit 1, None,
     [Rclpy_init;
      Create_subscription (topic cli_args)
        {| reliability := BEST_EFFORT; history := KEEP_LAST; depth := 10 |}]).
Proof.
  intros Hargs Ht. unfold main. rewrite Hargs, (init_refused _ _ _ _ Ht).
  reflexivity.
Qed.

(** [main] when [spin] is left by the interrupt. *)
Lemma main_interrupted argv cli_args events now s1 tr1 :
  parse_args argv = Parsed cli_args ->
  create_subscription_returns w (topic cli_args) = true ->
  spin w events
       (new_recorder (topic cli_args) (fps_arg cli_args) (output cli_args))
  = (Returned Interrupted, s1, tr1) ->
  main w argv events now
  = (if encoder_returns w now s1 then Exit 0 else Exit 1,
     Some (state_of (save_video w now (set_recording false s1))),
     Rclpy_init
     :: init_trace (topic cli_args) (fps_arg cli_args)
     ++ tr1
     ++ Log INFO "Stopping recording and saving video..."
        :: Recording_assign false
        :: trace_of (save_video w now (set_recording false s1))
     ++ [Destroy_node; Rclpy_shutdown])%list.
Proof.
  intros Hargs Ht Hspin. unfold main. rewrite Hargs.
  rewrite (init_returns _ _ _ _ Ht (parse_args_fps_bounded _ _ Hargs)).
  rewrite (try_spin_interrupted _ _ _ _ _ Hspin).
  rewrite save_video_result, encoder_returns_set_recording.
  destruct (encoder_returns w now s1);
    rewrite <- !List.app_assoc, <- !app_comm_cons; reflexivity.
Qed.

(** [main] when [spin] is not left by the interrupt. *)
Lemma main_not_interrupted argv cli_args events now r s1 tr1 :
  parse_args argv = Parsed cli_args ->
  create_subscription_returns w (topic cli_args) = true ->
  spin w events
       (new_recorder (topic cli_args) (fps_arg cli_args) (output cli_args))
  = (r, s1, tr1) ->
  r <> Returned Interrupted ->
  main w argv events now
  = (match r with
     | Raised _ => Exit 1
     | Returned Interrupted_again => Not_modelled
     | Returned _ => Spinning
     end,
     Some s1,
     Rclpy_init
     :: init_trace (topic cli_args) (fps_arg cli_args)
     ++ tr1
     ++ match r with
        | Raised _ => [Destroy_node; Rclpy_shutdown]
        | Returned _ => []
        end)%list.
Proof.
  intros Hargs Ht Hspin Hr. unfold main. rewrite Hargs.
  rewrite (init_returns _ _ _ _ Ht (parse_args_fps_bounded _ _ Hargs)).
  rewrite (try_spin_not_interrupted _ _ _ _ _ _ Hspin Hr).
  destruct r as [[| |]|e]; [now elim Hr| | |reflexivity];
    rewrite List.app_nil_r; reflexivity.
Qed.

End Run.
(** ** The writes of a run *)

Lemma replay_app tr1 tr2 a :
  replay (tr1 ++ tr2) a = replay tr2 (replay tr1 a).
Proof. apply fold_left_app. Qed.

Lemma append_only_app tr1 tr2 :
  forall a,
    append_only a tr1 -> append_only (replay tr1 a) tr2 ->
    append_only a (tr1 ++ tr2).
Proof.
  induction tr1 as [|ev tr1 IH]; intros a H1 H2; [exact H2|].
  cbn [List.app append_only] in *. destruct H1 as [Hev H1].
  split; [exact Hev | exact (IH _ H1 H2)].
Qed.

(** A trace that only appends keeps the flag and extends the list. *)
Lemma appends_only_sound tr :
  appends_only tr = true ->
  forall a,
    append_only a tr
    /\ snd (replay tr a) = snd a
    /\ prefix_of (fst a) (fst (replay tr a)).
Proof.
  induction tr as [|ev tr IH]; intros H a.
  - cbn. repeat split. apply prefix_of_refl.
  - assert (Hev : prefix_of (fst a) (fst (write ev a))
                  /\ snd (write ev a) = snd a /\ appends_only tr = true).
    { destruct ev; cbn in H |- *; try discriminate;
        repeat split; try exact H; try apply prefix_of_refl.
      now exists [frame]. }
    destruct Hev as (Hp & Hs & Htr).
    destruct (IH Htr (write ev a)) as (IH1 & IH2 & IH3).
    cbn [append_only replay fold_left].
    split; [split; [intros _; exact Hp | exact IH1]|].
    split; [change (snd (replay tr (write ev a)) = snd a); congruence|].
    exact (prefix_of_trans _ _ _ Hp IH3).
Qed.

(** Once the flag is not set, a trace that does not write it may write the
    list at will. *)
Lemma keeps_flag_sound tr :
  keeps_flag tr = true ->
  forall a,
    snd a <> Some true ->
    append_only a tr /\ snd (replay tr a) = snd a.
Proof.
  induction tr as [|ev tr IH]; intros H a Ha; [cbn; auto|].
  assert (Hev : snd (write ev a) = snd a /\ keeps_flag tr = true)
    by (destruct ev; cbn in H |- *; try discriminate; auto).
  destruct Hev as [Hs Htr].
  destruct (IH Htr (write ev a)) as [IH1 IH2]; [congruence|].
  cbn [append_only replay fold_left].
  split; [split; [intros E; contradiction | exact IH1]|].
  change (snd (replay tr (write ev a)) = snd a). congruence.
Qed.

Lemma replay_writes fs a : replay (map VideoWriter_write fs) a = a.
Proof.
  revert a. induction fs as [|f fs IH]; intros a; [reflexivity|].
  cbn [map replay fold_left write]. apply IH.
Qed.

Lemma keeps_flag_writes fs tr :
  keeps_flag (map VideoWriter_write fs ++ tr) = keeps_flag tr.
Proof. induction fs as [|f fs IH]; [reflexivity | exact IH]. Qed.

Section Writes.

Variable w : Environment.

(** The writes in the trace of a method are the changes it makes to the
    list and to the flag. *)
Lemma image_callback_replay msg s :
  attributes_of (state_of (image_callback w msg s))
  = replay (trace_of (image_callback w msg s)) (attributes_of s).
Proof.
  destruct (recording s) eqn:Hrec.
  - destruct (imgmsg_to_cv2 w msg "bgr8") as [f|] eqn:Hdec.
    + rewrite (image_callback_appends _ _ _ _ Hrec Hdec). reflexivity.
    + rewrite (image_callback_raises _ _ _ Hrec Hdec). reflexivity.
  - rewrite image_callback_off by exact Hrec. reflexivity.
Qed.

Lemma spin_replay events :
  forall s,
    attributes_of (state_of (spin w events s))
    = replay (trace_of (spin w events s)) (attributes_of s).
Proof.
  induction events as [|ev events IH]; intros s; [reflexivity|].
  destruct ev as [msg|].
  - rewrite spin_deliver.
    pose proof (image_callback_replay msg s) as Hcb.
    destruct (image_callback w msg s) as [[[a|e] s1] tr1];
      unfold state_of, trace_of in Hcb |- *; cbn [fst snd] in *.
    + rewrite replay_app, <- Hcb. apply IH.
    + exact Hcb.
  - cbn [spin]. destruct (existsb is_interrupt events); reflexivity.
Qed.

Lemma save_video_replay now s :
  attributes_of (state_of (save_video w now s))
  = replay (trace_of (save_video w now s)) (attributes_of s).
Proof.
  destruct (frames s) as [|f fs] eqn:Hfs.
  - rewrite save_video_no_frames by assumption. reflexivity.
  - destruct (encoder_returns w now s) eqn:Hret.
    + rewrite (save_video_some_frames _ _ _ _ _ Hfs Hret).
      unfold state_of, trace_of, saved_trace. cbn [fst snd].
      change (VideoWriter_write f :: map VideoWriter_write fs)
        with (map VideoWriter_write (f :: fs)).
      cbn [replay fold_left write].
      change (fold_left (fun a ev => write ev a) ?l ?a) with (replay l a).
      rewrite replay_app, replay_writes. reflexivity.
    + rewrite (save_video_raises _ _ _ _ _ Hfs Hret). reflexivity.
Qed.

(** [save_video] never writes the flag. *)
Lemma save_video_keeps_flag now s :
  keeps_flag (trace_of (save_video w now s)) = true.
Proof.
  destruct (frames s) as [|f fs] eqn:Hfs.
  - rewrite save_video_no_frames by assumption. reflexivity.
  - destruct (encoder_returns w now s) eqn:Hret.
    + rewrite (save_video_some_frames _ _ _ _ _ Hfs Hret).
      unfold trace_of, saved_trace. cbn [snd keeps_flag].
      change (VideoWriter_write f :: map VideoWriter_write fs)
        with (map VideoWriter_write (f :: fs)).
      rewrite keeps_flag_writes. reflexivity.
    + rewrite (save_video_raises _ _ _ _ _ Hfs Hret). reflexivity.
Qed.

(** The writes of [__init__]: the empty list, then the flag. *)
Lemma init_trace_writes topic_name fps :
  append_only ([], None) (Rclpy_init :: init_trace topic_name fps)
  /\ replay (Rclpy_init :: init_trace topic_name fps) ([], None)
     = ([], Some true).
Proof.
  cbn. repeat split; try discriminate; intros _; apply prefix_of_refl.
Qed.

(** The writes of a whole run: from the first event of [main] on, every
    write made while the flag is set keeps the frames held; and the writes
    are all that changes the two attributes of the recorder. *)
Lemma main_writes argv events now :
  append_only ([], None) (snd (main w argv events now))
  /\ forall recorder,
       snd (fst (main w argv events now)) = Some recorder ->
       attributes_of recorder = replay (snd (main w argv events now)) ([], None).
Proof.
  destruct (parse_args argv) as [cli| |] eqn:Hargs;
    [| unfold main; rewrite Hargs; cbn; split; [exact I | discriminate] ..].
  destruct (create_subscription_returns w (topic cli)) eqn:Ht;
    [| rewrite (main_refused _ _ _ _ _ Hargs Ht); cbn;
       split; [repeat split; discriminate | discriminate]].
  set (s0 := new_recorder (topic cli) (fps_arg cli) (output cli)).
  destruct (init_trace_writes (topic cli) (fps_arg cli)) as [Hi Hr].
  pose proof (spin_keeps w events s0) as (_ & Hflag & _ & Hcb).
  pose proof (spin_replay events s0) as Hsp.
  destruct (spin w events s0) as [[r s1] tr1] eqn:Hspin.
  unfold state_of, trace_of in Hflag, Hcb, Hsp. cbn [fst snd] in *.
  destruct (callback_trace _ Hcb) as (_ & _ & _ & _ & _ & Happ & _).
  destruct (appends_only_sound _ Happ ([], Some true)) as (Ha1 & Ha2 & _).
  assert (Hs1 : attributes_of s1 = replay tr1 ([], Some true)) by exact Hsp.
  assert (Hhead : forall tl,
            (Rclpy_init :: init_trace (topic cli) (fps_arg cli) ++ tr1 ++ tl
             = (Rclpy_init :: init_trace (topic cli) (fps_arg cli))
               ++ tr1 ++ tl)%list) by reflexivity.
  assert (Hdec : r = Returned Interrupted \/ r <> Returned Interrupted)
    by (destruct r as [[| |]|e]; (now left) || (right; discriminate)).
  destruct Hdec as [-> | Hr'].
  - rewrite (main_interrupted _ _ _ _ _ _ _ Hargs Ht Hspin). cbn [fst snd].
    rewrite Hhead. split.
    + apply append_only_app; [exact Hi|]. rewrite Hr.
      apply append_only_app; [exact Ha1|].
      cbn [append_only write fst snd].
      split; [intros _; apply prefix_of_refl|].
      split; [intros _; apply prefix_of_refl|].
      apply keeps_flag_sound; [|cbn; discriminate].
      assert (Hk : forall tr, keeps_flag tr = true ->
                keeps_flag (tr ++ [Destroy_node; Rclpy_shutdown]) = true).
      { induction tr as [|ev tr IH]; [reflexivity|].
        destruct ev; cbn; try discriminate; exact IH. }
      apply Hk, save_video_keeps_flag.
    + intros recorder [= <-].
      rewrite !replay_app, Hr, <- Hs1.
      cbn [replay fold_left write].
      change (fold_left (fun a ev => write ev a) ?l ?a) with (replay l a).
      rewrite replay_app. cbn [replay fold_left write].
      rewrite save_video_replay. reflexivity.
  - rewrite (main_not_interrupted _ _ _ _ _ _ _ _ Hargs Ht Hspin Hr').
    cbn [fst snd]. rewrite Hhead. split.
    + apply append_only_app; [exact Hi|]. rewrite Hr.
      apply append_only_app; [exact Ha1|].
      destruct r; cbn; repeat split; intros _; apply prefix_of_refl.
    + intros recorder [= <-].
      rewrite !replay_app, Hr, <- Hs1. destruct r; reflexivity.
Qed.

End Writes.
(** ** The command line *)

Section Command_line.

Lemma classify_long_form word : classify (long_form word) = classify word.
Proof.
  unfold long_form.
  destruct (String.eqb_spec word "-t") as [->|_]; [reflexivity|].
  destruct (String.eqb_spec word "-f") as [->|_]; [reflexivity|].
  destruct (String.eqb_spec word "-o") as [->|_]; [reflexivity|].
  destruct (String.eqb_spec word "-h") as [->|_]; reflexivity.
Qed.

Lemma long_form_value word : classify word = Arg -> long_form word = word.
Proof.
  unfold long_form. intros H.
  destruct (String.eqb_spec word "-t") as [->|_]; [discriminate|].
  destruct (String.eqb_spec word "-f") as [->|_]; [discriminate|].
  destruct (String.eqb_spec word "-o") as [->|_]; [discriminate|].
  destruct (String.eqb_spec word "-h") as [->|_]; [discriminate|reflexivity].
Qed.

(** An ASCII word that does not start with [-] is read as a value. *)
Lemma classify_plain_word word :
  Py.isascii word = true -> (forall rest, word <> String "-" rest) ->
  classify word = Arg.
Proof.
  intros Ha Hd. unfold classify. rewrite Ha. cbn [negb].
  destruct word as [|c word]; [reflexivity|].
  destruct (Ascii.eqb_spec c "-") as [->|Hc]; [now elim (Hd word)|].
  assert (He : forall s, String.eqb (String c word) (String "-" s) = false).
  { intros s. cbn. apply Ascii.eqb_neq in Hc. rewrite Hc. reflexivity. }
  rewrite !He. cbn [orb].
  destruct c as [[] [] [] [] [] [] [] []]; try reflexivity.
  now elim Hc.
Qed.

(** Induction on command lines, two words at a time. *)
Lemma words_ind (P : list string -> Prop) :
  P [] -> (forall word, P [word]) ->
  (forall word rest,
      P rest -> (forall v rest', rest = v :: rest' -> P rest') ->
      P (word :: rest)) ->
  forall argv, P argv.
Proof.
  intros H0 H1 Hstep argv.
  assert (H : P argv /\ forall v rest', argv = v :: rest' -> P rest').
  { induction argv as [|word rest [IH1 IH2]].
    - split; [exact H0 | discriminate].
    - split.
      + apply Hstep; assumption.
      + intros v rest' E. injection E as _ <-. exact IH1. }
  exact (proj1 H).
Qed.

Lemma parse_words_parsed argv :
  forall ns extras cli,
    parse_words ns extras argv = Parsed cli ->
    extras = false /\ option_value_pairs argv = true.
Proof.
  induction argv as [|word|word rest IH1 IH2] using words_ind;
    intros ns extras cli.
  - cbn. destruct extras; [discriminate|]. now split.
  - cbn. destruct (classify word); discriminate.
  - cbn [parse_words option_value_pairs].
    destruct (classify word) eqn:Ew; try discriminate.
    + destruct rest as [|v rest']; [discriminate|].
      destruct (classify v) eqn:Ev; try discriminate.
      destruct (store d v ns) as [ns'|]; [|discriminate].
      intros H. destruct (IH2 v rest' eq_refl _ _ _ H) as [-> Hp].
      split; [reflexivity|]. cbn. exact Hp.
    + intros H. destruct (IH1 _ _ _ H) as [E _]. discriminate.
Qed.

Lemma parse_words_long_form argv :
  forall ns extras,
    parse_words ns extras (map long_form argv) = parse_words ns extras argv.
Proof.
  induction argv as [|word|word rest IH1 IH2] using words_ind;
    intros ns extras.
  - reflexivity.
  - cbn. rewrite classify_long_form. reflexivity.
  - cbn [map parse_words]. rewrite classify_long_form.
    destruct (classify word) eqn:Ew; try reflexivity.
    + destruct rest as [|v rest']; [reflexivity|].
      cbn [map]. rewrite classify_long_form.
      destruct (classify v) eqn:Ev; try reflexivity.
      rewrite (long_form_value v Ev).
      destruct (store d v ns) as [ns'|]; [|reflexivity].
      apply (IH2 v rest' eq_refl).
    + apply IH1.
Qed.

Lemma parse_words_exit argv :
  forall ns extras status,
    parse_words ns extras argv = SystemExit status ->
    status = 0 \/ status = 2.
Proof.
  induction argv as [|word|word rest IH1 IH2] using words_ind;
    intros ns extras status.
  - cbn. destruct extras; [|discriminate]. intros [= <-]. now right.
  - cbn. destruct (classify word); try discriminate; intros [= <-]; auto.
  - cbn [parse_words].
    destruct (classify word) eqn:Ew; try discriminate.
    + destruct rest as [|v rest']; [intros [= <-]; now right|].
      destruct (classify v) eqn:Ev; try discriminate;
        try (intros [= <-]; now right).
      destruct (store d v ns) as [ns'|]; [|intros [= <-]; now right].
      apply (IH2 v rest' eq_refl).
    + intros [= <-]. now left.
    + apply IH1.
Qed.

(** What precedes two command lines that start with an option, and are
    read alike, does not tell them apart. *)
Lemma parse_words_prefix pre A B :
  starts_with_flag A = true -> starts_with_flag B = true ->
  (forall ns extras, parse_words ns extras A = parse_words ns extras B) ->
  forall ns extras,
    parse_words ns extras (pre ++ A) = parse_words ns extras (pre ++ B).
Proof.
  intros HA HB Hsame.
  induction pre as [|word|word rest IH1 IH2] using words_ind;
    intros ns extras.
  - apply Hsame.
  - cbn [List.app parse_words].
    destruct (classify word) eqn:Ew; try reflexivity; [|apply Hsame].
    destruct A as [|a A']; [discriminate|].
    destruct B as [|b B']; [discriminate|].
    cbn in HA, HB.
    destruct (classify a); try discriminate.
    destruct (classify b); try discriminate. reflexivity.
  - rewrite <- !app_comm_cons. cbn [parse_words].
    destruct (classify word) eqn:Ew; try reflexivity; [|apply IH1].
    destruct rest as [|v rest'].
    + cbn [List.app].
      destruct A as [|a A']; [discriminate|].
      destruct B as [|b B']; [discriminate|].
      cbn in HA, HB.
      destruct (classify a); try discriminate.
      destruct (classify b); try discriminate. reflexivity.
    + rewrite <- !app_comm_cons.
      destruct (classify v) eqn:Ev; try reflexivity.
      destruct (store d v ns) as [ns'|]; [|reflexivity].
      apply (IH2 v rest' eq_refl).
Qed.

Lemma agree_except_refl d ns : agree_except d ns ns.
Proof. destruct d; split; reflexivity. Qed.

(** Storing a value where two namespaces may differ makes them equal. *)
Lemma store_agree d value ns1 ns2 :
  agree_except d ns1 ns2 -> store d value ns1 = store d value ns2.
Proof.
  destruct d; cbn; intros [H1 H2]; rewrite ?H1, ?H2; reflexivity.
Qed.

(** Storing a value leaves two namespaces as close as they were. *)
Lemma store_keeps_agree d d' value ns1 ns2 :
  agree_except d ns1 ns2 ->
  match store d' value ns1, store d' value ns2 with
  | Some ns1', Some ns2' => agree_except d ns1' ns2'
  | None, None => True
  | _, _ => False
  end.
Proof.
  destruct d, d'; cbn; intros [H1 H2];
    try destruct (Py.int value); cbn; auto.
Qed.

(** What an option stores differs from the namespace before in the
    attribute of the option only. *)
Lemma store_agree_except d value ns ns' :
  store d value ns = Some ns' -> agree_except d ns' ns.
Proof.
  destruct d; cbn.
  - intros [= <-]. now split.
  - destruct (Py.int value); [|discriminate]. intros [= <-]. now split.
  - intros [= <-]. now split.
Qed.

(** Once the option of [d] is given again, what the namespace held for [d]
    before is forgotten. *)
Lemma parse_words_agree d flag2 value2 rest mid :
  classify flag2 = Flag d -> classify value2 = Arg ->
  forall ns1 ns2 extras,
    agree_except d ns1 ns2 ->
    parse_words ns1 extras (mid ++ flag2 :: value2 :: rest)
    = parse_words ns2 extras (mid ++ flag2 :: value2 :: rest).
Proof.
  intros Hf2 Hv2.
  induction mid as [|word|word mid' IH1 IH2] using words_ind;
    intros ns1 ns2 extras Hag.
  - cbn [List.app parse_words]. rewrite Hf2, Hv2.
    rewrite (store_agree d value2 ns1 ns2 Hag). reflexivity.
  - cbn [List.app]. cbn [parse_words].
    destruct (classify word) eqn:Ew; try reflexivity.
    + rewrite Hf2. reflexivity.
    + rewrite Hf2, Hv2.
      rewrite (store_agree d value2 ns1 ns2 Hag). reflexivity.
  - rewrite <- !app_comm_cons.
    cbn [parse_words].
    destruct (classify word) eqn:Ew; try reflexivity; [|now apply IH1].
    destruct mid' as [|v mid''].
    + cbn [List.app]. rewrite Hf2. reflexivity.
    + rewrite <- !app_comm_cons.
      destruct (classify v) eqn:Ev; try reflexivity.
      pose proof (store_keeps_agree d d0 v ns1 ns2 Hag) as Hst.
      destruct (store d0 v ns1) as [ns1'|], (store d0 v ns2) as [ns2'|];
        try contradiction; [|reflexivity].
      apply (IH2 v mid'' eq_refl). exact Hst.
Qed.

(** An option whose value is refused is a usage error, in whatever
    arrangement of options and values it comes. *)
Lemma parse_words_refused flag value rest pre :
  classify flag = Flag Dest_fps -> classify value = Arg ->
  Py.int value = None ->
  forallb flag_or_arg pre = true ->
  forall ns extras,
    parse_words ns extras (pre ++ flag :: value :: rest) = SystemExit 2.
Proof.
  intros Hf Hv Hint.
  assert (Hbase : forall ns extras,
             parse_words ns extras (flag :: value :: rest) = SystemExit 2).
  { intros ns extras. cbn [parse_words]. rewrite Hf, Hv. cbn [store].
    rewrite Hint. reflexivity. }
  induction pre as [|word|word pre' IH1 IH2] using words_ind;
    intros Hpre ns extras.
  - apply Hbase.
  - cbn [List.app parse_words]. cbn in Hpre. unfold flag_or_arg in Hpre.
    destruct (classify word) eqn:Ew; try discriminate.
    + rewrite Hf. reflexivity.
    + fold (parse_words ns true (flag :: value :: rest)). apply Hbase.
  - rewrite <- app_comm_cons. cbn [parse_words].
    cbn [forallb] in Hpre. apply andb_true_iff in Hpre as [Hw Hpre].
    unfold flag_or_arg in Hw.
    destruct (classify word) eqn:Ew; try discriminate;
      [|now apply IH1].
    destruct pre' as [|v pre''].
    + cbn [List.app]. rewrite Hf. reflexivity.
    + rewrite <- app_comm_cons.
      cbn [forallb] in Hpre. apply andb_true_iff in Hpre as [Hvv Hpre].
      unfold flag_or_arg in Hvv.
      destruct (classify v) eqn:Ev; try discriminate; [reflexivity|].
      destruct (store d v ns) as [ns'|]; [|reflexivity].
      apply (IH2 v pre'' eq_refl Hpre).
Qed.

End Command_line.

(** ** A frame rate that is not an integer *)

Section Not_an_integer.

Lemma lstrip_keeps c s :
  Py.isspace c = false -> In c (list_ascii_of_string s) ->
  In c (list_ascii_of_string (Py.lstrip s)).
Proof.
  intros Hc. induction s as [|a s IH]; [intros []|].
  cbn [Py.lstrip]. destruct (Py.isspace a) eqn:Ea; [|auto].
  intros [->|H]; [congruence | auto].
Qed.

Lemma rstrip_keeps c s :
  Py.isspace c = false -> In c (list_ascii_of_string s) ->
  In c (list_ascii_of_string (Py.rstrip s)).
Proof.
  intros Hc. induction s as [|a s IH]; [intros []|].
  cbn [Py.rstrip list_ascii_of_string]. intros [->|H].
  - destruct (Py.rstrip s); [rewrite Hc|]; now left.
  - specialize (IH H). destruct (Py.rstrip s); [destruct IH|].
    right. exact IH.
Qed.

Lemma strip_keeps c s :
  Py.isspace c = false -> In c (list_ascii_of_string s) ->
  In c (list_ascii_of_string (Py.strip s)).
Proof. intros Hc H. apply lstrip_keeps, rstrip_keeps; assumption. Qed.

(** The digits stop at the first character that is neither a digit nor an
    underscore. *)
Lemma int_digits_stops c s :
  Py.isdigit c = false -> Ascii.eqb c "_" = false ->
  In c (list_ascii_of_string s) ->
  forall after_digit acc, Py.int_digits after_digit acc s = None.
Proof.
  intros Hd Hu. induction s as [|a s IH]; [intros []|].
  intros Hin after_digit acc. cbn [Py.int_digits].
  destruct Hin as [->|Hin].
  - rewrite Hd, Hu. reflexivity.
  - destruct (Py.isdigit a); [now apply IH|].
    destruct (Ascii.eqb a "_" && after_digit); [now apply IH | reflexivity].
Qed.

(** A string with a character that no integer literal holds is refused. *)
Lemma int_refuses c s :
  int_char c = false -> In c (list_ascii_of_string s) -> Py.int s = None.
Proof.
  unfold int_char. intros Hc Hin. apply int_value_none.
  apply orb_false_iff in Hc as [Hc Hsp].
  apply orb_false_iff in Hc as [Hc Hminus].
  apply orb_false_iff in Hc as [Hc Hplus].
  apply orb_false_iff in Hc as [Hd Hu].
  pose proof (strip_keeps c s Hsp Hin) as Hst.
  rewrite int_value_by_sign. destruct (Py.strip s) as [|a ds]; [reflexivity|].
  destruct (Ascii.eqb_spec a "-") as [->|_].
  - destruct Hst as [<-|Hst]; [discriminate|].
    rewrite (int_digits_stops c ds Hd Hu Hst). reflexivity.
  - destruct (Ascii.eqb_spec a "+") as [->|_].
    + destruct Hst as [<-|Hst]; [discriminate|].
      apply (int_digits_stops c ds Hd Hu Hst).
    + apply (int_digits_stops c (String a ds) Hd Hu Hst).
Qed.

End Not_an_integer.
(** ** The effects of a run that is interrupted *)

(** What the projections see of the trace of an interrupted run: the
    effects of the one call of [save_video], and the subscription. *)
Lemma interrupted_trace topic_name fps tr1 saved :
  forallb of_callback tr1 = true ->
  let tr :=
    (Rclpy_init :: init_trace topic_name fps ++ tr1
     ++ Log INFO "Stopping recording and saving video..."
        :: Recording_assign false
        :: saved ++ [Destroy_node; Rclpy_shutdown])%list in
  written_frames tr = written_frames saved
  /\ opened_files tr = opened_files saved
  /\ encoder_rates tr = encoder_rates saved.
Proof.
  intros Hcb tr. subst tr.
  destruct (callback_trace _ Hcb) as (Ho & Hw & _ & Hr & _).
  cbn [init_trace List.app written_frames opened_files encoder_rates].
  rewrite written_frames_app, opened_files_app, encoder_rates_app.
  rewrite Ho, Hw, Hr.
  cbn [List.app written_frames opened_files encoder_rates].
  rewrite written_frames_app, opened_files_app, encoder_rates_app.
  cbn. rewrite !List.app_nil_r. repeat split.
Qed.

(** * The specification *)

(** ** The claims on the two methods *)

(** C2. When the list of frames is empty, [save_video] logs one error,
    never calls the constructor of the writer (so no file is created),
    returns without raising and leaves the recorder as it was. *)
Theorem save_video_empty_is_logged_noop w now s :
  frames s = [] ->
  save_video w now s
  = (Returned tt, s, [Log ERROR "No frames recorded!"])
  /\ opened_files (trace_of (save_video w now s)) = []
  /\ written_frames (trace_of (save_video w now s)) = [].
Proof.
  intros Hfs. rewrite (save_video_no_frames w now s Hfs).
  repeat split.
Qed.

Lemma save_video_empty_is_logged_noop_witness :
  frames (sample_recorder (Some "clip") []) = []
  /\ save_video (sample_env utc) 0 (sample_recorder (Some "clip") [])
     = (Returned tt, sample_recorder (Some "clip") [],
        [Log ERROR "No frames recorded!"]).
Proof.
  split; [reflexivity|].
  apply (save_video_empty_is_logged_noop (sample_env utc) 0
           (sample_recorder (Some "clip") [])).
  reflexivity.
Defined.

(** C4. On a list that holds a frame, [save_video] completes its writes
    exactly when the constructor of the writer returns, and then it returns
    with the list cleared: every frame was written, the writer released,
    and the recorder it leaves has no frame and every other attribute as
    before.  When the constructor raises, nothing is written and the list
    is left as it was. *)
Theorem save_video_clears_frames w now s :
  frames s <> [] ->
  (In VideoWriter_release (trace_of (save_video w now s))
   <-> encoder_returns w now s = true)
  /\ (encoder_returns w now s = true ->
      result_of (save_video w now s) = Returned tt
      /\ written_frames (trace_of (save_video w now s)) = frames s
      /\ state_of (save_video w now s) = set_frames [] s
      /\ frames (state_of (save_video w now s)) = [])
  /\ (encoder_returns w now s = false ->
      (exists e, result_of (save_video w now s) = Raised e)
      /\ written_frames (trace_of (save_video w now s)) = []
      /\ state_of (save_video w now s) = s).
Proof.
  intros Hfs. destruct (frames s) as [|f fs] eqn:E; [contradiction|].
  destruct (encoder_returns w now s) eqn:Hret.
  - pose proof (save_video_writes w now s) as Hw. rewrite Hret, E in Hw.
    rewrite (save_video_some_frames w now s f fs E Hret) in *.
    split; [|split; [|intros; discriminate]].
    + split; [reflexivity|]. intros _. unfold trace_of, saved_trace.
      cbn [snd]. right. apply in_or_app. right. now left.
    + intros _. repeat split. exact Hw.
  - rewrite (save_video_raises w now s f fs E Hret).
    split; [|split; [intros; discriminate|]].
    + split; [|discriminate]. cbn. intros [H|[]]. discriminate.
    + intros _. split; [eexists; reflexivity|]. split; reflexivity.
Qed.

Lemma save_video_clears_frames_witness :
  frames (sample_recorder None [sample_frame Byte.x01]) <> []
  /\ frames (state_of (save_video (sample_env utc) 0
                         (sample_recorder None [sample_frame Byte.x01]))) = [].
Proof.
  split; [discriminate|].
  refine (proj2 (proj2 (proj2
    (proj1 (proj2 (save_video_clears_frames (sample_env utc) 0
                     (sample_recorder None [sample_frame Byte.x01]) _))
       _)))).
  - discriminate.
  - reflexivity.
Defined.

(** C5. While the flag is cleared the callback does nothing: it returns
    without calling the decoder (its trace is empty) and the recorder is the
    same object state as before, whatever the message. *)
Theorem image_callback_ignores_when_stopped w msg s :
  recording s = false ->
  image_callback w msg s = (Returned tt, s, []).
Proof. apply image_callback_off. Qed.

Lemma image_callback_ignores_when_stopped_witness :
  recording (set_recording false (sample_recorder None [])) = false
  /\ image_callback (sample_env utc) mono_msg
       (set_recording false (sample_recorder None []))
     = (Returned tt, set_recording false (sample_recorder None []), []).
Proof.
  split; [reflexivity|].
  apply (image_callback_ignores_when_stopped (sample_env utc) mono_msg
           (set_recording false (sample_recorder None []))).
  reflexivity.
Defined.

(** C9, as stated, fails when the first call raises: with a frame rate no
    C double holds, the constructor of the writer raises, the list is left
    as it was, and the second call finds the frame again and calls the
    constructor again instead of logging the error. *)
Lemma save_video_twice_counterexample :
  let s := set_frames [sample_frame Byte.x01]
             (new_recorder "/camera/image_raw" (10 ^ 400) None) in
  let first := save_video (sample_env utc) 0 s in
  let second := save_video (sample_env utc) 5 (state_of first) in
  frames s <> []
  /\ result_of first
     = Raised (VideoWriter_raised "camera_record_19700101-000000.mp4"
                 (10 ^ 400) (1, 1))
  /\ frames (state_of first) = [sample_frame Byte.x01]
  /\ logged ERROR (trace_of second) = []
  /\ opened_files (trace_of second) = ["camera_record_19700101-000005.mp4"].
Proof.
  cbv zeta. split; [discriminate|]. vm_compute. repeat split.
Qed.

(** C9, amended.  When the first [save_video] on a list that holds a frame
    returns (the constructor of the writer returned), it called the
    constructor once, wrote every frame and left the list empty; a second
    [save_video] then finds the list empty: it logs the error, never calls
    the constructor and leaves the recorder as the first call left it.
    When the first call raises, the recorder is as before and the second
    call calls the constructor again. *)
Theorem save_video_twice w now1 now2 s :
  frames s <> [] ->
  let first := save_video w now1 s in
  let s1 := state_of first in
  opened_files (trace_of first) = [output_path w (output_filename s) now1]
  /\ (encoder_returns w now1 s = true ->
      result_of first = Returned tt
      /\ written_frames (trace_of first) = frames s
      /\ s1 = set_frames [] s
      /\ frames s1 = []
      /\ save_video w now2 s1
         = (Returned tt, s1, [Log ERROR "No frames recorded!"])
      /\ opened_files (trace_of (save_video w now2 s1)) = [])
  /\ (encoder_returns w now1 s = false ->
      s1 = s
      /\ logged ERROR (trace_of (save_video w now2 s1)) = []
      /\ opened_files (trace_of (save_video w now2 s1))
         = [output_path w (output_filename s) now2]).
Proof.
  intros Hfs first s1. subst first s1.
  split; [exact (save_video_opened_files w now1 s Hfs)|].
  destruct (frames s) as [|f fs] eqn:E; [contradiction|].
  split; intros Hret.
  - pose proof (save_video_writes w now1 s) as Hw. rewrite Hret, E in Hw.
    rewrite (save_video_some_frames w now1 s f fs E Hret) in *.
    unfold result_of, state_of, trace_of in *. cbn [fst snd] in *.
    rewrite (save_video_no_frames w now2 (set_frames [] s) eq_refl).
    repeat split. exact Hw.
  - rewrite (save_video_raises w now1 s f fs E Hret).
    unfold state_of. cbn [fst snd].
    split; [reflexivity|].
    assert (Hne : frames s <> []) by (rewrite E; discriminate).
    split; [|exact (save_video_opened_files w now2 s Hne)].
    destruct (encoder_returns w now2 s) eqn:Hret2.
    + rewrite (save_video_some_frames w now2 s f fs E Hret2).
      unfold trace_of, saved_trace. cbn [snd logged].
      change (VideoWriter_write f :: map VideoWriter_write fs)
        with (map VideoWriter_write (f :: fs)).
      rewrite logged_app, logged_writes. reflexivity.
    + rewrite (save_video_raises w now2 s f fs E Hret2). reflexivity.
Qed.

Lemma save_video_twice_witness :
  frames (sample_recorder None [sample_frame Byte.x01]) <> []
  /\ frames (state_of (save_video (sample_env utc) 0
                         (sample_recorder None [sample_frame Byte.x01]))) = []
  /\ trace_of
       (save_video (sample_env utc) 5
          (state_of (save_video (sample_env utc) 0
                       (sample_recorder None [sample_frame Byte.x01]))))
     = [Log ERROR "No frames recorded!"].
Proof.
  split; [discriminate|].
  pose proof (save_video_twice (sample_env utc) 0 5
                (sample_recorder None [sample_frame Byte.x01])
                ltac:(discriminate)) as H.
  cbv zeta in H. destruct H as (_ & H & _).
  destruct (H eq_refl) as (_ & _ & _ & Hempty & Hsecond & _).
  split; [exact Hempty|]. rewrite Hsecond. reflexivity.
Defined.

(** ** The output path of a configured name *)

(** The path for a configured name that is not empty is the one the
    specification words. *)
Lemma output_path_configured w name now :
  name <> "" -> output_path w (Some name) now = spec_output_path name.
Proof.
  intros Hne. unfold output_path, spec_output_path.
  destruct name as [|c name]; [contradiction|].
  cbn [Py.truthy_opt_str Py.truthy_str Py.the_str].
  destruct (Py.endswith (String c name) ".mp4"); reflexivity.
Qed.

(** The empty name is taken as no name. *)
Lemma output_path_empty_name w now :
  output_path w (Some "") now = output_path w None now.
Proof. reflexivity. Qed.

(** C3, as stated, fails on the empty name: [if self.output_filename:] is
    false for it, and the path is the dated one, not [.mp4]. *)
Lemma configured_empty_name_counterexample :
  opened_files
    (trace_of (save_video (sample_env utc) 0
                 (sample_recorder (Some "") [sample_frame Byte.x01])))
  = ["camera_record_19700101-000000.mp4"]
  /\ spec_output_path "" = ".mp4"
  /\ opened_files
       (trace_of (save_video (sample_env utc) 0
                    (sample_recorder (Some "") [sample_frame Byte.x01])))
     <> [spec_output_path ""].
Proof.
  split; [vm_compute; reflexivity|]. split; [reflexivity|].
  vm_compute. discriminate.
Qed.

(** C3, amended.  For a configured name and a list that holds a frame,
    [save_video] calls the constructor of the writer once.  When the name
    is not empty the path it gives is the one the specification words: the
    name itself when it is some stem followed by [.mp4], the name followed
    by [.mp4] otherwise.  The empty name is taken as no name: the path is
    the dated one.  The path logged, when the constructor returns, is the
    path given; when it raises nothing is logged. *)
Theorem configured_name_gets_mp4_suffix w now s name :
  output_filename s = Some name ->
  frames s <> [] ->
  let tr := trace_of (save_video w now s) in
  let path := if String.eqb name "" then output_path w None now
              else spec_output_path name in
  opened_files tr = [path]
  /\ logged INFO tr
     = (if encoder_returns w now s then ["Video saved to " ++ path] else [])
  /\ ((exists stem, name = stem ++ ".mp4") -> spec_output_path name = name)
  /\ (~ (exists stem, name = stem ++ ".mp4") ->
      spec_output_path name = name ++ ".mp4").
Proof.
  intros Hname Hfs tr path.
  assert (Hpath : output_path w (Some name) now = path).
  { subst path. destruct (String.eqb_spec name "") as [->|Hne].
    - apply output_path_empty_name.
    - apply output_path_configured. exact Hne. }
  split; [|split; [|split]].
  - subst tr. rewrite save_video_opened_files by exact Hfs.
    rewrite Hname, Hpath. reflexivity.
  - subst tr. rewrite save_video_logged_info.
    destruct (frames s); [contradiction|].
    rewrite Hname, Hpath. reflexivity.
  - intros Hstem. apply endswith_spec in Hstem.
    unfold spec_output_path. rewrite Hstem. reflexivity.
  - intros Hstem. unfold spec_output_path.
    destruct (Py.endswith name ".mp4") eqn:E; [|reflexivity].
    apply endswith_spec in E. contradiction.
Qed.

Lemma configured_name_gets_mp4_suffix_witness :
  opened_files
    (trace_of (save_video (sample_env utc) 0
                 (sample_recorder (Some "clip") [sample_frame Byte.x01])))
  = ["clip.mp4"]
  /\ opened_files
       (trace_of (save_video (sample_env utc) 0
                    (sample_recorder (Some "a.mp4") [sample_frame Byte.x01])))
     = ["a.mp4"]
  /\ opened_files
       (trace_of (save_video (sample_env utc) 0
                    (sample_recorder (Some "") [sample_frame Byte.x01])))
     = ["camera_record_19700101-000000.mp4"].
Proof.
  split; [|split].
  - apply (configured_name_gets_mp4_suffix (sample_env utc) 0
             (sample_recorder (Some "clip") [sample_frame Byte.x01]) "clip");
      [reflexivity | discriminate].
  - apply (configured_name_gets_mp4_suffix (sample_env utc) 0
             (sample_recorder (Some "a.mp4") [sample_frame Byte.x01]) "a.mp4");
      [reflexivity | discriminate].
  - apply (configured_name_gets_mp4_suffix (sample_env utc) 0
             (sample_recorder (Some "") [sample_frame Byte.x01]) "");
      [reflexivity | discriminate].
Defined.

(** ** The dated output path *)

Lemma output_path_dated w now :
  output_path w None now
  = "camera_record_"
    ++ Time.strftime "%Y%m%d-%H%M%S" (Time.localtime (utcoffset w) now)
    ++ ".mp4".
Proof. reflexivity. Qed.

(** Two dated paths are the same exactly when the local clock reads the
    same at the two instants. *)
Lemma output_path_dated_inj w now1 now2 :
  output_path w None now1 = output_path w None now2
  <-> now1 + utcoffset w now1 = now2 + utcoffset w now2.
Proof.
  rewrite !output_path_dated. unfold Time.localtime. split.
  - intros H.
    apply append_inj_length_l in H as [_ H]; [|reflexivity].
    apply append_inj_length_r in H as [H _]; [|reflexivity].
    apply strftime_inj in H.
    + apply gmtime_inj in H. exact H.
    + pose proof (gmtime_ranges (now1 + utcoffset w now1)).
      unfold two_digit_fields. lia.
    + pose proof (gmtime_ranges (now2 + utcoffset w now2)).
      unfold two_digit_fields. lia.
  - intros ->. reflexivity.
Qed.

(** C7, as stated, fails where the local clock is set back: in Berlin, on
    the night summer time ended in 2025, two saves one hour apart (at
    00:30:00 and 01:30:00 UTC) both read 02:30:00 on the local clock and
    give the same path. *)
Lemma dated_name_repeats_counterexample :
  1 <= 1761442200 - 1761438600
  /\ opened_files
       (trace_of (save_video (sample_env europe_berlin_2025) 1761438600
                    (sample_recorder None [sample_frame Byte.x01])))
     = ["camera_record_20251026-023000.mp4"]
  /\ opened_files
       (trace_of (save_video (sample_env europe_berlin_2025) 1761442200
                    (sample_recorder None [sample_frame Byte.x02])))
     = ["camera_record_20251026-023000.mp4"].
Proof. split; [lia|]. split; vm_compute; reflexivity. Qed.

(** C7, amended.  With no output name configured and a frame in the list,
    [save_video] gives the writer the path
    [camera_record_<YYYYMMDD-HHMMSS>.mp4]: year, month, day, hour, minute
    and second of the local time of the save, the last five on two digits
    each and within their ranges, the year on four digits from 1970 to
    9999.  Two such saves give the same path exactly when the local clock
    reads the same at both, that is when the instants plus their offsets
    from UTC are equal; so saves one second or more apart give different
    paths whenever the offset is the same at both instants. *)
Theorem dated_name_when_unconfigured w s1 s2 now1 now2 :
  output_filename s1 = None -> output_filename s2 = None ->
  frames s1 <> [] -> frames s2 <> [] ->
  let lt := Time.localtime (utcoffset w) now1 in
  let timestamp :=
    Py.str (Time.tm_year lt) ++ Time.pad2 (Time.tm_mon lt)
    ++ Time.pad2 (Time.tm_mday lt) ++ "-" ++ Time.pad2 (Time.tm_hour lt)
    ++ Time.pad2 (Time.tm_min lt) ++ Time.pad2 (Time.tm_sec lt) in
  opened_files (trace_of (save_video w now1 s1))
  = ["camera_record_" ++ timestamp ++ ".mp4"]
  /\ (1 <= Time.tm_mon lt <= 12 /\ 1 <= Time.tm_mday lt <= 31
      /\ 0 <= Time.tm_hour lt <= 23 /\ 0 <= Time.tm_min lt <= 59
      /\ 0 <= Time.tm_sec lt <= 59)
  /\ (0 <= now1 + utcoffset w now1 < 253402300800 ->
      String.length timestamp = 15%nat)
  /\ (opened_files (trace_of (save_video w now1 s1))
      = opened_files (trace_of (save_video w now2 s2))
      <-> now1 + utcoffset w now1 = now2 + utcoffset w now2)
  /\ (1 <= Z.abs (now2 - now1) -> utcoffset w now1 = utcoffset w now2 ->
      opened_files (trace_of (save_video w now1 s1))
      <> opened_files (trace_of (save_video w now2 s2))).
Proof.
  intros Hn1 Hn2 Hf1 Hf2 lt timestamp.
  rewrite !save_video_opened_files by assumption. rewrite Hn1, Hn2.
  split; [|split; [|split; [|split]]].
  - rewrite output_path_dated, strftime_fields. reflexivity.
  - apply gmtime_ranges.
  - intros Hrange. subst timestamp. rewrite <- strftime_fields.
    apply strftime_length. subst lt. unfold Time.localtime.
    pose proof (gmtime_year _ Hrange). lia.
  - rewrite <- output_path_dated_inj. split; [|intros ->; reflexivity].
    intros H. exact (f_equal (fun l => List.hd EmptyString l) H).
  - intros Hapart Hoff Heq.
    assert (Hp : output_path w None now1 = output_path w None now2)
      by congruence.
    apply output_path_dated_inj in Hp. lia.
Qed.

Lemma dated_name_when_unconfigured_witness :
  opened_files
    (trace_of (save_video (sample_env utc) 1761438600
                 (sample_recorder None [sample_frame Byte.x01])))
  <> opened_files
       (trace_of (save_video (sample_env utc) 1761438601
                    (sample_recorder None [sample_frame Byte.x02]))).
Proof.
  refine (proj2 (proj2 (proj2 (proj2
    (dated_name_when_unconfigured (sample_env utc)
       (sample_recorder None [sample_frame Byte.x01])
       (sample_recorder None [sample_frame Byte.x02])
       1761438600 1761438601 eq_refl eq_refl _ _)))) _ eq_refl).
  - discriminate.
  - discriminate.
  - vm_compute. discriminate.
Defined.

(** ** The claims on a whole run *)







(** ** The list of frames while the flag is set *)

(** C6, as stated, fails for [save_video]: called on a recorder whose flag
    is set and whose list holds a frame, it clears the list, and the list
    before is no prefix of the list after. *)
Lemma save_video_not_append_only_counterexample :
  let s := sample_recorder None [sample_frame Byte.x01] in
  let s' := state_of (save_video (sample_env utc) 0 s) in
  recording s = true
  /\ frames s = [sample_frame Byte.x01]
  /\ frames s' = []
  /\ ~ prefix_of (frames s) (frames s').
Proof.
  cbv zeta. repeat split. intros [ext H]. vm_compute in H. discriminate.
Qed.

(** C6, amended.  In every run of [main], from its first event on, every
    write to the two attributes made while the flag is set leaves the list
    it found as a prefix of the list it leaves: the callback only appends,
    and [main] calls [save_video], which clears the list, only after it
    has cleared the flag.  The writes of the trace are all that changes the
    two attributes: replayed from the start they give the list and the flag
    of the recorder the run leaves.  The callback and [spin], in whatever
    state they run, keep the frames they find as a prefix; [save_video],
    whatever the flag, does not: when it returns from a list that held a
    frame, the list is empty. *)
Theorem frames_append_only_while_recording w argv events now :
  append_only ([], None) (snd (main w argv events now))
  /\ (forall recorder,
        snd (fst (main w argv events now)) = Some recorder ->
        attributes_of recorder
        = replay (snd (main w argv events now)) ([], None))
  /\ (forall msg s,
        prefix_of (frames s) (frames (state_of (image_callback w msg s))))
  /\ (forall deliveries s,
        prefix_of (frames s) (frames (state_of (spin w deliveries s))))
  /\ (forall t s,
        frames s <> [] -> encoder_returns w t s = true ->
        frames (state_of (save_video w t s)) = []
        /\ ~ prefix_of (frames s) (frames (state_of (save_video w t s)))).
Proof.
  destruct (main_writes w argv events now) as [H1 H2].
  split; [exact H1|]. split; [exact H2|]. split; [|split].
  - intros msg s. apply image_callback_keeps.
  - intros deliveries s. apply spin_keeps.
  - intros t s Hfs Hret. rewrite save_video_state, Hret.
    split; [reflexivity|]. intros [ext H]. cbn [frames set_frames] in H.
    destruct (frames s); [contradiction | discriminate].
Qed.

(** ** The frame rate from the command line to the encoder *)

Lemma parse_args_fps flag n :
  flag = "-f" \/ flag = "--fps" ->
  Py.str_raises n = false ->
  parse_args [flag; Py.str n]
  = Parsed {| topic := "/sensing/camera/traffic_light/image_raw";
              fps_arg := n; output := None |}.
Proof.
  intros [-> | ->] Hn; unfold parse_args; cbn [parse_words];
    change (classify "-f") with (Flag Dest_fps);
    change (classify "--fps") with (Flag Dest_fps);
    cbn iota; rewrite classify_str; unfold store; rewrite (int_str n Hn);
    reflexivity.
Qed.

(** A frame rate of more than 4300 digits is refused on the command line,
    and by [__init__]. *)
Lemma fps_refused w m :
  10 ^ 4300 <= Z.abs m ->
  parse_args ["-f"; Py.str m] = SystemExit 2
  /\ parse_args ["--fps"; Py.str m] = SystemExit 2
  /\ forall topic_name output_filename,
       exists e, fst (__init__ w topic_name m output_filename) = Raised e.
Proof.
  intros Hm.
  assert (Hstr : Py.str_raises m = true)
    by (unfold Py.str_raises; apply Z.leb_le; exact Hm).
  split; [|split].
  - unfold parse_args. cbn [parse_words].
    change (classify "-f") with (Flag Dest_fps). cbn iota.
    rewrite classify_str. unfold store.
    rewrite (int_str_refused m Hstr). reflexivity.
  - unfold parse_args. cbn [parse_words].
    change (classify "--fps") with (Flag Dest_fps). cbn iota.
    rewrite classify_str. unfold store.
    rewrite (int_str_refused m Hstr). reflexivity.
  - intros topic_name output_filename. unfold __init__.
    destruct (create_subscription_returns w topic_name); cbn [negb].
    + rewrite Hstr. eexists. reflexivity.
    + eexists. reflexivity.
Qed.

(** C10, as stated, fails for the integers of more than 4300 digits:
    [int] refuses the numeral of [10 ^ 4300] (CPython's limit on the digits
    of a conversion), so argparse ends the process with status 2; and
    [__init__], given that number, raises on the f-string of its second
    log line. *)
Lemma fps_too_long_counterexample :
  parse_args ["-f"; Py.str (10 ^ 4300)] = SystemExit 2
  /\ fst (__init__ (sample_env utc) "/camera/image_raw" (10 ^ 4300) None)
     = Raised ValueError.
Proof. split; vm_compute; reflexivity. Qed.

(** C10, amended.  No step checks that the frame rate is positive.  For
    every integer [n] of at most 4300 digits, zero and the negative ones
    included: the command line [-f n] (or [--fps n]) is accepted and yields
    [n]; [__init__], on a topic rclpy accepts, stores it as it is; and
    [save_video] gives it as it is to the constructor of the writer, so a
    run that records a frame and is interrupted calls the constructor with
    the rate [n].  An integer of more than 4300 digits is refused whatever
    its sign: on the command line, with status 2, and by [__init__], which
    raises. *)
Theorem fps_is_never_validated
    w n msgs fs now topic_name output_filename :
  Z.abs n < 10 ^ 4300 ->
  msgs <> [] ->
  Forall2 (fun m f => imgmsg_to_cv2 w m "bgr8" = Some f) msgs fs ->
  parse_args ["-f"; Py.str n]
  = Parsed {| topic := "/sensing/camera/traffic_light/image_raw";
              fps_arg := n; output := None |}
  /\ parse_args ["--fps"; Py.str n] = parse_args ["-f"; Py.str n]
  /\ (create_subscription_returns w topic_name = true ->
      exists recorder,
        fst (__init__ w topic_name n output_filename) = Returned recorder
        /\ fps recorder = n)
  /\ (forall s t,
        frames s <> [] ->
        encoder_rates (trace_of (save_video w t s)) = [fps s])
  /\ (create_subscription_returns w "/sensing/camera/traffic_light/image_raw"
      = true ->
      encoder_rates
        (snd (main w ["-f"; Py.str n]
                (map Deliver msgs ++ [KeyboardInterrupt])%list now))
      = [n])
  /\ (forall m,
        10 ^ 4300 <= Z.abs m ->
        parse_args ["-f"; Py.str m] = SystemExit 2
        /\ parse_args ["--fps"; Py.str m] = SystemExit 2
        /\ forall topic_name output_filename,
             exists e,
               fst (__init__ w topic_name m output_filename) = Raised e).
Proof.
  intros Hn Hne Hall.
  assert (Hstr : Py.str_raises n = false)
    by (unfold Py.str_raises; apply Z.leb_gt; exact Hn).
  pose proof (parse_args_fps "-f" n (or_introl eq_refl) Hstr) as Hf.
  pose proof (parse_args_fps "--fps" n (or_intror eq_refl) Hstr) as Hfps.
  split; [exact Hf|]. split; [congruence|]. split.
  { intros Ht. rewrite (init_returns w _ _ _ Ht Hstr).
    eexists. split; reflexivity. }
  split; [intros s t Hs; exact (save_video_rate w t s Hs)|].
  split; [|exact (fps_refused w)].
  intros Ht.
  set (recorder :=
         new_recorder "/sensing/camera/traffic_light/image_raw" n None).
  assert (Hspin : spin w (map Deliver msgs ++ [KeyboardInterrupt]) recorder
                  = (Returned Interrupted, set_frames fs recorder,
                     decoded_trace msgs fs)).
  { rewrite (spin_deliveries w msgs fs recorder);
      [reflexivity | reflexivity | exact Hall]. }
  rewrite (main_interrupted w _ _ _ now _ _ Hf Ht Hspin).
  cbn [snd topic fps_arg output].
  destruct (interrupted_trace "/sensing/camera/traffic_light/image_raw" n
              (decoded_trace msgs fs)
              (trace_of (save_video w now
                           (set_recording false (set_frames fs recorder))))
              (decoded_trace_of_callback msgs fs)) as (_ & _ & Hr).
  rewrite Hr, save_video_rate.
  - reflexivity.
  - cbn [frames set_recording set_frames]. destruct Hall; [|discriminate].
    contradiction.
Qed.

Lemma fps_is_never_validated_witness :
  parse_args ["-f"; "-5"]
  = Parsed {| topic := "/sensing/camera/traffic_light/image_raw";
              fps_arg := -5; output := None |}
  /\ encoder_rates
       (snd (main (sample_env utc) ["-f"; "0"]
               (map Deliver [sample_msg Byte.x01] ++ [KeyboardInterrupt])%list
               0))
     = [0].
Proof.
  assert (H5 : Z.abs (-5) < 10 ^ 4300).
  { apply Z.lt_le_trans with (10 ^ 1); [reflexivity|].
    apply Z.pow_le_mono_r; lia. }
  assert (H0 : Z.abs 0 < 10 ^ 4300) by (apply Z.pow_pos_nonneg; lia).
  split.
  - refine (proj1 (fps_is_never_validated (sample_env utc) (-5)
                     [sample_msg Byte.x01] [sample_frame Byte.x01] 0
                     "/camera/image_raw" None H5 _ _)).
    + discriminate.
    + repeat constructor.
  - refine (proj1 (proj2 (proj2 (proj2 (proj2
             (fps_is_never_validated (sample_env utc) 0
                [sample_msg Byte.x01] [sample_frame Byte.x01] 0
                "/camera/image_raw" None H0 _ _))))) eq_refl).
    + discriminate.
    + repeat constructor.
Defined.

(** * Further properties of the code

    Command lines are those [classify] describes: every word is an option
    string of the source, [-h] or [--help], or a value. *)

(** ** What the command line may look like *)

(** X1. Of the command lines whose words are option strings of the source
    and values, [parse_args] returns a namespace only for those made of
    options each followed by its value: a stray value, an option without
    its value and [-h] never yield one. *)
Theorem parse_args_accepts_only_pairs argv cli_args :
  parse_args argv = Parsed cli_args -> option_value_pairs argv = true.
Proof.
  intros H. exact (proj2 (parse_words_parsed argv _ _ _ H)).
Qed.

Lemma parse_args_accepts_only_pairs_witness :
  option_value_pairs ["--topic"; "/camera/image_raw"; "-f"; "30"] = true.
Proof.
  apply (parse_args_accepts_only_pairs
           ["--topic"; "/camera/image_raw"; "-f"; "30"]
           {| topic := "/camera/image_raw"; fps_arg := 30; output := None |}).
  reflexivity.
Defined.

(** X2. When an option is given again later on the command line, in either
    spelling, the later value is the one kept: the command line is read as
    if the earlier occurrence were not there, whatever words come before
    it, whatever options with their values stand between the two, and
    whatever follows (provided the earlier value is itself accepted: an
    integer, for the frame rate). *)
Theorem parse_args_last_wins pre flag1 value1 mid flag2 value2 d rest :
  classify flag1 = Flag d -> classify flag2 = Flag d ->
  classify value1 = Arg -> classify value2 = Arg ->
  option_value_pairs mid = true ->
  (d = Dest_fps -> Py.int value1 <> None) ->
  parse_args (pre ++ flag1 :: value1 :: mid ++ flag2 :: value2 :: rest)
  = parse_args (pre ++ mid ++ flag2 :: value2 :: rest).
Proof.
  intros Hf1 Hf2 Hv1 Hv2 Hmid Hint. unfold parse_args.
  apply parse_words_prefix.
  - cbn. rewrite Hf1. reflexivity.
  - destruct mid as [|word mid']; cbn.
    + rewrite Hf2. reflexivity.
    + cbn in Hmid. destruct mid' as [|v mid'']; [discriminate|].
      destruct (classify word); try discriminate. reflexivity.
  - intros ns extras. cbn [parse_words]. rewrite Hf1, Hv1.
    destruct (store d value1 ns) as [ns1|] eqn:E1.
    + apply (parse_words_agree d flag2 value2 rest mid Hf2 Hv2).
      exact (store_agree_except _ _ _ _ E1).
    + destruct d; cbn in E1; try discriminate.
      destruct (Py.int value1); [discriminate|]. now elim Hint.
Qed.

Lemma parse_args_last_wins_witness :
  parse_args ["-t"; "/a"; "-f"; "8"; "-o"; "clip"; "--fps"; "30"; "-t"; "/b"]
  = parse_args ["-t"; "/a"; "-o"; "clip"; "--fps"; "30"; "-t"; "/b"].
Proof.
  apply (parse_args_last_wins ["-t"; "/a"] "-f" "8" ["-o"; "clip"]
           "--fps" "30" Dest_fps ["-t"; "/b"]);
    try reflexivity.
  intros _. vm_compute. discriminate.
Defined.

(** X3. Two different options can be given in either order: exchanging two
    neighbouring options with their values, anywhere on the command line,
    does not change what [parse_args] does, a refused frame rate
    included. *)
Theorem parse_args_options_commute
    pre flag1 flag2 d1 d2 value1 value2 rest :
  classify flag1 = Flag d1 -> classify flag2 = Flag d2 -> d1 <> d2 ->
  classify value1 = Arg -> classify value2 = Arg ->
  parse_args (pre ++ flag1 :: value1 :: flag2 :: value2 :: rest)
  = parse_args (pre ++ flag2 :: value2 :: flag1 :: value1 :: rest).
Proof.
  intros Hf1 Hf2 Hd Hv1 Hv2. unfold parse_args.
  apply parse_words_prefix.
  - cbn. rewrite Hf1. reflexivity.
  - cbn. rewrite Hf2. reflexivity.
  - intros ns extras. cbn [parse_words].
    rewrite Hf1, Hf2, Hv1, Hv2.
    destruct d1, d2; try (now elim Hd); cbn [store topic fps_arg output];
      try reflexivity;
      try (destruct (Py.int value1); reflexivity);
      try (destruct (Py.int value2); reflexivity).
Qed.

Lemma parse_args_options_commute_witness :
  parse_args ["-t"; "a"; "-f"; "1"; "-o"; "x"]
  = parse_args ["-t"; "a"; "-o"; "x"; "-f"; "1"].
Proof.
  apply (parse_args_options_commute ["-t"; "a"] "-f" "-o"
           Dest_fps Dest_output "1" "x" []); try reflexivity.
  discriminate.
Defined.

(** X4. The short and the long spelling of an option are interchangeable:
    writing every [-t], [-f], [-o], [-h] as [--topic], [--fps],
    [--output], [--help] does not change what [parse_args] does. *)
Theorem parse_args_long_form argv :
  parse_args (map long_form argv) = parse_args argv.
Proof. apply parse_words_long_form. Qed.

(** X5. A frame rate written with a character that no integer holds (a
    decimal point, an exponent, a letter) ends the program with status 2
    before anything else is done: no recorder is built and the trace is
    empty, in whatever arrangement of options and values the pair comes,
    whatever follows it on the command line and whatever the topic
    delivers. *)
Theorem fps_not_an_integer_exits_2
    w pre flag value c rest events now :
  forallb flag_or_arg pre = true ->
  flag = "-f" \/ flag = "--fps" ->
  classify value = Arg ->
  In c (list_ascii_of_string value) -> int_char c = false ->
  main w (pre ++ flag :: value :: rest) events now = (Exit 2, None, []).
Proof.
  intros Hpre Hflag Hv Hin Hc. unfold main, parse_args.
  assert (Hf : classify flag = Flag Dest_fps)
    by (destruct Hflag; subst; reflexivity).
  rewrite (parse_words_refused flag value rest pre Hf Hv
             (int_refuses c value Hc Hin) Hpre).
  reflexivity.
Qed.

Lemma fps_not_an_integer_exits_2_witness :
  main (sample_env utc) ["stray"; "-o"; "clip"; "--fps"; "7.5"; "-h"]
       [Deliver (sample_msg Byte.x01); KeyboardInterrupt] 0
  = (Exit 2, None, []).
Proof.
  apply (fps_not_an_integer_exits_2 (sample_env utc)
           ["stray"; "-o"; "clip"] "--fps" "7.5" "." ["-h"]).
  - reflexivity.
  - now right.
  - reflexivity.
  - cbn. tauto.
  - reflexivity.
Defined.

(** ** The file the video goes to *)

Lemma output_path_endswith w name now :
  Py.endswith (output_path w name now) ".mp4" = true.
Proof.
  unfold output_path. destruct (Py.truthy_opt_str name).
  - destruct (Py.endswith (Py.the_str name) ".mp4") eqn:E; cbn [negb].
    + exact E.
    + apply endswith_spec. now exists (Py.the_str name).
  - apply endswith_spec.
    exists ("camera_record_"
            ++ Time.strftime "%Y%m%d-%H%M%S"
                 (Time.localtime (utcoffset w) now)).
    symmetry. apply append_assoc.
Qed.

Lemma endswith_truthy s suffix :
  suffix <> "" -> Py.endswith s suffix = true -> Py.truthy_str s = true.
Proof.
  intros Hne H. apply endswith_spec in H as [stem ->].
  destruct stem; [|reflexivity]. destruct suffix; [contradiction|reflexivity].
Qed.

(** X6. Whatever the configured name (none, empty, with or without the
    suffix) and whatever the clock, every path [save_video] gives to the
    constructor of the writer ends in [.mp4]; the path it logs, when the
    constructor returns, is that path, and when the constructor raises it
    logs nothing; with no frame in the list it calls no constructor and
    logs no path. *)
Theorem saved_file_is_mp4 w now s :
  Forall (fun path => Py.endswith path ".mp4" = true)
         (opened_files (trace_of (save_video w now s)))
  /\ logged INFO (trace_of (save_video w now s))
     = (if encoder_returns w now s
        then map (fun path => "Video saved to " ++ path)
                 (opened_files (trace_of (save_video w now s)))
        else [])
  /\ (frames s = [] ->
      opened_files (trace_of (save_video w now s)) = []
      /\ logged INFO (trace_of (save_video w now s)) = []).
Proof.
  destruct (frames s) as [|f fs] eqn:Hfs.
  - rewrite save_video_no_frames by exact Hfs.
    split; [constructor|]. split; [|now split].
    destruct (encoder_returns w now s); reflexivity.
  - assert (Hne : frames s <> []) by (rewrite Hfs; discriminate).
    rewrite save_video_opened_files by exact Hne.
    rewrite save_video_logged_info, Hfs.
    split; [constructor; [apply output_path_endswith | constructor]|].
    split; [|discriminate].
    destruct (encoder_returns w now s); reflexivity.
Qed.

(** X7. The path [save_video] settles on is a fixed point: given back as
    the configured name, at any later time, it yields itself (nothing is
    appended twice, and a dated name stays the one it was). *)
Theorem output_path_idempotent w name now now' :
  output_path w (Some (output_path w name now)) now'
  = output_path w name now.
Proof.
  pose proof (output_path_endswith w name now) as He.
  set (p := output_path w name now) in *.
  unfold output_path at 1. cbn [Py.truthy_opt_str Py.the_str].
  rewrite (endswith_truthy p ".mp4" ltac:(discriminate) He), He.
  reflexivity.
Qed.

(** X8. On a list that holds a frame, [save_video] drives the encoder in
    this order and no other: the constructor of [VideoWriter] is called
    once, with the codec [mp4v] (0x7634706D), the frame rate of the
    recorder and the size (width, height) of the first frame.  When it
    returns, every frame is written, the first one included, whatever its
    own size; then the writer is released; then the path is logged; then
    the list is cleared.  When it raises, the call is all that happened:
    the exception leaves [save_video] and the recorder is as before. *)
Theorem save_video_encoder_protocol w now s frame0 fs :
  frames s = frame0 :: fs ->
  let path := output_path w (output_filename s) now in
  (encoder_returns w now s = true ->
   save_video w now s
   = (Returned tt, set_frames [] s,
      VideoWriter_open path 1983148141 (fps s) (width frame0, height frame0)
      :: map VideoWriter_write (frame0 :: fs)
      ++ [VideoWriter_release; Log INFO ("Video saved to " ++ path);
          Frames_assign []])%list)
  /\ (encoder_returns w now s = false ->
      save_video w now s
      = (Raised (VideoWriter_raised path (fps s)
                   (width frame0, height frame0)),
         s,
         [VideoWriter_open path 1983148141 (fps s)
            (width frame0, height frame0)])).
Proof.
  intros Hfs path. split; intros Hret.
  - rewrite (save_video_some_frames w now s frame0 fs Hfs Hret).
    reflexivity.
  - rewrite (save_video_raises w now s frame0 fs Hfs Hret). reflexivity.
Qed.

Lemma save_video_encoder_protocol_witness :
  trace_of (save_video (sample_env utc) 0
              (sample_recorder (Some "clip")
                 [sample_frame Byte.x01;
                  {| height := 2; width := 3; pixels := [] |}]))
  = [VideoWriter_open "clip.mp4" 1983148141 8 (1, 1);
     VideoWriter_write (sample_frame Byte.x01);
     VideoWriter_write {| height := 2; width := 3; pixels := [] |};
     VideoWriter_release;
     Log INFO "Video saved to clip.mp4";
     Frames_assign []].
Proof.
  rewrite (proj1
             (save_video_encoder_protocol (sample_env utc) 0
                (sample_recorder (Some "clip")
                   [sample_frame Byte.x01;
                    {| height := 2; width := 3; pixels := [] |}])
                (sample_frame Byte.x01)
                [{| height := 2; width := 3; pixels := [] |}]
                eq_refl)
             eq_refl).
  reflexivity.
Defined.

(** ** Runs that do not end by a save *)

(** What the projections see of the trace of a run that [spin] left
    otherwise than by the interrupt. *)
Lemma not_interrupted_trace topic_name fps tr1 tl :
  forallb of_callback tr1 = true ->
  tl = [] \/ tl = [Destroy_node; Rclpy_shutdown] ->
  let tr := (Rclpy_init :: init_trace topic_name fps ++ tr1 ++ tl)%list in
  written_frames tr = [] /\ opened_files tr = []
  /\ subscriptions tr
     = [(topic_name,
         {| reliability := BEST_EFFORT; history := KEEP_LAST; depth := 10 |})].
Proof.
  intros Hcb Htl tr. subst tr.
  destruct (callback_trace _ Hcb) as (Ho & Hw & Hs & _).
  cbn [init_trace List.app written_frames opened_files subscriptions].
  rewrite written_frames_app, opened_files_app, subscriptions_app.
  rewrite Ho, Hw, Hs. destruct Htl as [-> | ->]; repeat split.
Qed.

(** X9. A message the decoder refuses, delivered while the flag is set,
    ends the run: the exception leaves [spin], no [except] clause takes it,
    the [finally] clause runs and the process exits with status 1.  The
    frames decoded until then are still in the list; no constructor of a
    writer was called, so they are lost with the process; what the topic
    delivers afterwards is never read. *)
Theorem undecodable_message_ends_run
    w argv cli_args msgs fs bad rest now :
  parse_args argv = Parsed cli_args ->
  Forall2 (fun m f => imgmsg_to_cv2 w m "bgr8" = Some f) msgs fs ->
  imgmsg_to_cv2 w bad "bgr8" = None ->
  let run := main w argv (map Deliver msgs ++ Deliver bad :: rest) now in
  fst (fst run) = Exit 1
  /\ opened_files (snd run) = []
  /\ written_frames (snd run) = []
  /\ (create_subscription_returns w (topic cli_args) = true ->
      run = (Exit 1,
             Some (set_frames fs
                     (new_recorder (topic cli_args) (fps_arg cli_args)
                        (output cli_args))),
             Rclpy_init :: init_trace (topic cli_args) (fps_arg cli_args)
             ++ decoded_trace msgs fs ++ [Imgmsg_to_cv2 bad "bgr8"]
             ++ [Destroy_node; Rclpy_shutdown])%list).
Proof.
  intros Hargs Hall Hbad run.
  destruct (create_subscription_returns w (topic cli_args)) eqn:Ht.
  - assert (Hrun : run
                   = (Exit 1,
                      Some (set_frames fs
                              (new_recorder (topic cli_args) (fps_arg cli_args)
                                 (output cli_args))),
                      Rclpy_init
                      :: init_trace (topic cli_args) (fps_arg cli_args)
                      ++ decoded_trace msgs fs ++ [Imgmsg_to_cv2 bad "bgr8"]
                      ++ [Destroy_node; Rclpy_shutdown])%list).
    { subst run.
      rewrite (main_not_interrupted w argv cli_args _ now _ _ _ Hargs Ht
                 (spin_raises w msgs fs bad rest
                    (new_recorder (topic cli_args) (fps_arg cli_args)
                       (output cli_args))
                    eq_refl Hall Hbad))
        by discriminate.
      rewrite <- !List.app_assoc. reflexivity. }
    rewrite Hrun. cbn [fst snd].
    assert (Hcb : forallb of_callback
                    (decoded_trace msgs fs ++ [Imgmsg_to_cv2 bad "bgr8"])
                  = true)
      by (rewrite forallb_app, decoded_trace_of_callback; reflexivity).
    destruct (not_interrupted_trace (topic cli_args) (fps_arg cli_args)
                _ [Destroy_node; Rclpy_shutdown] Hcb (or_intror eq_refl))
      as (Hw & Ho & _).
    rewrite <- !List.app_assoc in Hw, Ho.
    split; [reflexivity|]. split; [exact Ho|]. split; [exact Hw|].
    intros _. reflexivity.
  - subst run. rewrite (main_refused w argv cli_args _ now Hargs Ht).
    repeat split. discriminate.
Qed.

Lemma undecodable_message_ends_run_witness :
  main (sample_env utc) []
       (map Deliver [sample_msg Byte.x01] ++ Deliver mono_msg
        :: [Deliver (sample_msg Byte.x02); KeyboardInterrupt])%list 0
  = (Exit 1,
     Some (set_frames [sample_frame Byte.x01]
             (new_recorder "/sensing/camera/traffic_light/image_raw" 8 None)),
     Rclpy_init :: init_trace "/sensing/camera/traffic_light/image_raw" 8
     ++ [Imgmsg_to_cv2 (sample_msg Byte.x01) "bgr8";
         Frames_append (sample_frame Byte.x01);
         Imgmsg_to_cv2 mono_msg "bgr8";
         Destroy_node; Rclpy_shutdown])%list.
Proof.
  refine (proj2 (proj2 (proj2
    (undecodable_message_ends_run (sample_env utc) []
       {| topic := "/sensing/camera/traffic_light/image_raw";
          fps_arg := 8; output := None |}
       [sample_msg Byte.x01] [sample_frame Byte.x01] mono_msg
       [Deliver (sample_msg Byte.x02); KeyboardInterrupt] 0
       eq_refl _ eq_refl))) eq_refl).
  repeat constructor.
Defined.

(** X11. Without the interrupt nothing is ever saved: whatever the topic
    delivers, no constructor of a writer is called and no frame is written,
    and the process is either still inside [spin] or was ended with status
    1 by an exception. *)
Theorem no_interrupt_no_file w argv cli_args events now :
  parse_args argv = Parsed cli_args ->
  ~ In KeyboardInterrupt events ->
  let run := main w argv events now in
  (fst (fst run) = Spinning \/ fst (fst run) = Exit 1)
  /\ opened_files (snd run) = []
  /\ written_frames (snd run) = [].
Proof.
  intros Hargs Hin run. subst run.
  destruct (create_subscription_returns w (topic cli_args)) eqn:Ht;
    [|rewrite (main_refused w argv cli_args _ now Hargs Ht);
      repeat split; now right].
  set (s0 := new_recorder (topic cli_args) (fps_arg cli_args)
                          (output cli_args)).
  pose proof (spin_not_interrupted w events Hin s0) as Hr.
  pose proof (spin_keeps w events s0) as (_ & _ & _ & Hcb).
  destruct (spin w events s0) as [[r s1] tr1] eqn:Hspin.
  unfold result_of, trace_of in Hr, Hcb. cbn [fst snd] in Hr, Hcb.
  assert (Hr' : r <> Returned Interrupted)
    by (destruct Hr as [-> | [e ->]]; discriminate).
  rewrite (main_not_interrupted w argv cli_args events now r s1 tr1
             Hargs Ht Hspin Hr').
  cbn [fst snd].
  destruct Hr as [-> | [e ->]].
  - destruct (not_interrupted_trace (topic cli_args) (fps_arg cli_args)
                tr1 [] Hcb (or_introl eq_refl)) as (Hw & Ho & _).
    split; [now left|]. split; assumption.
  - destruct (not_interrupted_trace (topic cli_args) (fps_arg cli_args)
                tr1 [Destroy_node; Rclpy_shutdown] Hcb (or_intror eq_refl))
      as (Hw & Ho & _).
    split; [now right|]. split; assumption.
Qed.

Lemma no_interrupt_no_file_witness :
  opened_files
    (snd (main (sample_env utc) ["-o"; "clip"]
            [Deliver (sample_msg Byte.x01); Deliver (sample_msg Byte.x02)] 0))
  = [].
Proof.
  refine (proj1 (proj2
            (no_interrupt_no_file (sample_env utc) ["-o"; "clip"]
               {| topic := "/sensing/camera/traffic_light/image_raw";
                  fps_arg := 8; output := Some "clip" |}
               [Deliver (sample_msg Byte.x01); Deliver (sample_msg Byte.x02)]
               0 eq_refl _))).
  cbn. intros [H|[H|[]]]; discriminate.
Defined.

(** X12. While the process spins the recorder drops nothing and bounds
    nothing: after [N] messages that all decode, and no interrupt, on a
    topic rclpy accepted, it holds the [N] decoded frames in the order of
    delivery and the process has not ended. *)
Theorem spinning_holds_every_frame w argv cli_args msgs fs now :
  parse_args argv = Parsed cli_args ->
  create_subscription_returns w (topic cli_args) = true ->
  Forall2 (fun m f => imgmsg_to_cv2 w m "bgr8" = Some f) msgs fs ->
  main w argv (map Deliver msgs) now
  = (Spinning,
     Some (set_frames fs
             (new_recorder (topic cli_args) (fps_arg cli_args)
                (output cli_args))),
     Rclpy_init :: init_trace (topic cli_args) (fps_arg cli_args)
     ++ decoded_trace msgs fs)%list.
Proof.
  intros Hargs Ht Hall.
  rewrite (main_not_interrupted w argv cli_args _ now _ _ _ Hargs Ht
             (spin_blocked w msgs fs
                (new_recorder (topic cli_args) (fps_arg cli_args)
                   (output cli_args))
                eq_refl Hall))
    by discriminate.
  rewrite List.app_nil_r. reflexivity.
Qed.

Lemma spinning_holds_every_frame_witness :
  snd (fst (main (sample_env utc) []
              (map Deliver [sample_msg Byte.x01; sample_msg Byte.x02]) 0))
  = Some (set_frames [sample_frame Byte.x01; sample_frame Byte.x02]
            (new_recorder "/sensing/camera/traffic_light/image_raw" 8 None)).
Proof.
  refine (f_equal (fun r => snd (fst r))
            (spinning_holds_every_frame (sample_env utc) []
               {| topic := "/sensing/camera/traffic_light/image_raw";
                  fps_arg := 8; output := None |}
               [sample_msg Byte.x01; sample_msg Byte.x02]
               [sample_frame Byte.x01; sample_frame Byte.x02] 0
               eq_refl eq_refl _)).
  repeat constructor.
Defined.

(** ** What every run keeps *)

(** The recorder a run leaves, when it built one, and the trace of the
    run, from what [spin] did. *)
Lemma main_built w argv cli_args events now e recorder tr :
  parse_args argv = Parsed cli_args ->
  main w argv events now = (e, Some recorder, tr) ->
  create_subscription_returns w (topic cli_args) = true
  /\ exists r s1 tr1,
       spin w events
            (new_recorder (topic cli_args) (fps_arg cli_args)
               (output cli_args))
       = (r, s1, tr1).
Proof.
  intros Hargs Hmain.
  destruct (create_subscription_returns w (topic cli_args)) eqn:Ht.
  - split; [reflexivity|].
    destruct (spin w events _) as [[r s1] tr1]. now exists r, s1, tr1.
  - rewrite (main_refused w argv cli_args events now Hargs Ht) in Hmain.
    discriminate.
Qed.

(** X13. The configuration is fixed at construction: in whatever way the
    run goes (still spinning, saved, ended by an exception), the recorder it
    leaves has the topic, the frame rate and the output name of the command
    line, and its subscription is on that topic, best-effort, keep-last,
    depth 10. *)
Theorem configuration_never_changes
    w argv cli_args events now e recorder tr :
  parse_args argv = Parsed cli_args ->
  main w argv events now = (e, Some recorder, tr) ->
  topic_name recorder = topic cli_args
  /\ fps recorder = fps_arg cli_args
  /\ output_filename recorder = output cli_args
  /\ subscription recorder
     = (topic cli_args,
        {| reliability := BEST_EFFORT; history := KEEP_LAST; depth := 10 |}).
Proof.
  intros Hargs Hmain.
  destruct (main_built w argv cli_args events now e recorder tr Hargs Hmain)
    as (Ht & r & s1 & tr1 & Hspin).
  set (s0 := new_recorder (topic cli_args) (fps_arg cli_args)
                          (output cli_args)) in *.
  assert (Hcfg : same_config s0 recorder).
  { pose proof (spin_keeps w events s0) as (Hc & _).
    rewrite Hspin in Hc. unfold state_of in Hc. cbn [fst snd] in Hc.
    assert (Hdec : r = Returned Interrupted \/ r <> Returned Interrupted)
      by (destruct r as [[| |]|ex]; (now left) || (right; discriminate)).
    destruct Hdec as [-> | Hr].
    - rewrite (main_interrupted w argv cli_args events now s1 tr1
                 Hargs Ht Hspin) in Hmain.
      pose proof (f_equal (fun x => snd (fst x)) Hmain) as Hrec.
      cbn [fst snd] in Hrec. injection Hrec as <-.
      apply (same_config_trans _ _ _ Hc).
      apply (same_config_trans _ (set_recording false s1));
        [repeat split | apply save_video_keeps].
    - rewrite (main_not_interrupted w argv cli_args events now _ s1 tr1
                 Hargs Ht Hspin Hr) in Hmain.
      pose proof (f_equal (fun x => snd (fst x)) Hmain) as Hrec.
      cbn [fst snd] in Hrec. injection Hrec as <-. exact Hc. }
  destruct Hcfg as (H1 & H2 & H3 & H4). rewrite H1, H2, H3, H4.
  repeat split.
Qed.

Lemma configuration_never_changes_witness :
  fps (state_of (save_video (sample_env utc) 0
                   (set_recording false
                      (set_frames [sample_frame Byte.x01]
                         (new_recorder
                            "/sensing/camera/traffic_light/image_raw"
                            30 None))))) = 30.
Proof.
  refine (proj1 (proj2
            (configuration_never_changes (sample_env utc) ["-f"; "30"]
               {| topic := "/sensing/camera/traffic_light/image_raw";
                  fps_arg := 30; output := None |}
               [Deliver (sample_msg Byte.x01); KeyboardInterrupt] 0
               (Exit 0) _
               (snd (main (sample_env utc) ["-f"; "30"]
                       [Deliver (sample_msg Byte.x01); KeyboardInterrupt] 0))
               eq_refl _))).
  reflexivity.
Defined.

(** X14. How a process can end.  Argparse ended it, with status 0 (help)
    or 2 (usage error), before any call into ROS: no recorder, empty
    trace.  Or rclpy refused the topic: [__init__] raised after
    [rclpy.init], no recorder was built, the [try] statement was never
    entered, so its [finally] clause did not run, and the status is 1.  Or
    the recorder was built, the status is 0 or 1, and the calls into ROS
    are bracketed: [rclpy.init] comes first and the [finally] clause,
    [destroy_node] then [rclpy.shutdown], comes last, and only there. *)
Theorem exit_is_bracketed w argv events now status recorder tr :
  main w argv events now = (Exit status, recorder, tr) ->
  (recorder = None /\ tr = [] /\ (status = 0 \/ status = 2))
  \/ (recorder = None /\ status = 1
      /\ exists cli_args,
           parse_args argv = Parsed cli_args
           /\ create_subscription_returns w (topic cli_args) = false
           /\ tr = [Rclpy_init;
                    Create_subscription (topic cli_args)
                      {| reliability := BEST_EFFORT; history := KEEP_LAST;
                         depth := 10 |}])
  \/ (exists s tr',
         recorder = Some s
         /\ tr = (Rclpy_init :: tr' ++ [Destroy_node; Rclpy_shutdown])%list
         /\ (status = 0 \/ status = 1)
         /\ ~ In Destroy_node tr' /\ ~ In Rclpy_shutdown tr').
Proof.
  intros Hmain.
  destruct (parse_args argv) as [cli|st|] eqn:Hargs.
  - right.
    destruct (create_subscription_returns w (topic cli)) eqn:Ht.
    + right.
      set (s0 := new_recorder (topic cli) (fps_arg cli) (output cli)).
      pose proof (spin_keeps w events s0) as (_ & _ & _ & Hcb).
      destruct (spin w events s0) as [[r s1] tr1] eqn:Hspin.
      unfold trace_of in Hcb. cbn [snd] in Hcb.
      destruct (callback_trace _ Hcb) as (_ & _ & _ & _ & _ & _ & Hd & Hs).
      assert (Hinit : ~ In Destroy_node (init_trace (topic cli) (fps_arg cli))
                      /\ ~ In Rclpy_shutdown
                           (init_trace (topic cli) (fps_arg cli)))
        by (split; cbn; intuition discriminate).
      destruct Hinit as [Hid His].
      assert (Hdec : r = Returned Interrupted \/ r <> Returned Interrupted)
        by (destruct r as [[| |]|ex]; (now left) || (right; discriminate)).
      destruct Hdec as [-> | Hr].
      * rewrite (main_interrupted w argv cli events now s1 tr1
                   Hargs Ht Hspin) in Hmain.
        destruct (save_video_quiet w now (set_recording false s1))
          as (_ & Hsd & Hss).
        exists (state_of (save_video w now (set_recording false s1))).
        exists (init_trace (topic cli) (fps_arg cli)
                ++ tr1
                ++ Log INFO "Stopping recording and saving video..."
                   :: Recording_assign false
                   :: trace_of (save_video w now
                                  (set_recording false s1)))%list.
        pose proof (f_equal (fun x => fst (fst x)) Hmain) as H1.
        pose proof (f_equal (fun x => snd (fst x)) Hmain) as H2.
        pose proof (f_equal snd Hmain) as H3.
        cbn [fst snd] in H1, H2, H3.
        split; [symmetry; exact H2|].
        split; [rewrite <- H3, <- !List.app_assoc, <- !app_comm_cons;
                reflexivity|].
        split; [destruct (encoder_returns w now s1); injection H1 as <-;
                auto|].
        split; intros H; apply in_app_or in H as [H|H]; auto;
          apply in_app_or in H as [H|H]; auto;
          destruct H as [H|[H|H]]; try discriminate; auto.
      * rewrite (main_not_interrupted w argv cli events now _ s1 tr1
                   Hargs Ht Hspin Hr) in Hmain.
        destruct r as [[| |]|ex]; try discriminate.
        exists s1, (init_trace (topic cli) (fps_arg cli) ++ tr1)%list.
        pose proof (f_equal (fun x => fst (fst x)) Hmain) as H1.
        pose proof (f_equal (fun x => snd (fst x)) Hmain) as H2.
        pose proof (f_equal snd Hmain) as H3.
        cbn [fst snd] in H1, H2, H3.
        split; [symmetry; exact H2|].
        split; [rewrite <- H3, <- !List.app_assoc; reflexivity|].
        split; [injection H1 as <-; now right|].
        split; intros H; apply in_app_or in H as [H|H]; auto.
    + left.
      rewrite (main_refused w argv cli events now Hargs Ht) in Hmain.
      injection Hmain as <- <- <-.
      split; [reflexivity|]. split; [reflexivity|].
      exists cli. repeat split. exact Ht.
  - left. unfold main in Hmain. rewrite Hargs in Hmain.
    injection Hmain as <- <- <-. repeat split.
    exact (parse_words_exit argv _ _ _ Hargs).
  - unfold main in Hmain. rewrite Hargs in Hmain. discriminate.
Qed.

Lemma exit_is_bracketed_witness :
  (exists s tr',
      snd (fst (main (sample_env utc) []
                  [Deliver (sample_msg Byte.x01); KeyboardInterrupt] 0))
      = Some s
      /\ snd (main (sample_env utc) []
                [Deliver (sample_msg Byte.x01); KeyboardInterrupt] 0)
         = (Rclpy_init :: tr' ++ [Destroy_node; Rclpy_shutdown])%list
      /\ ~ In Destroy_node tr' /\ ~ In Rclpy_shutdown tr')
  /\ (exists cli_args,
        parse_args ["-t"; ""] = Parsed cli_args
        /\ snd (main (sample_env utc) ["-t"; ""] [KeyboardInterrupt] 0)
           = [Rclpy_init;
              Create_subscription (topic cli_args)
                {| reliability := BEST_EFFORT; history := KEEP_LAST;
                   depth := 10 |}]).
Proof.
  split.
  - destruct (exit_is_bracketed (sample_env utc) []
                [Deliver (sample_msg Byte.x01); KeyboardInterrupt] 0 0
                (snd (fst (main (sample_env utc) []
                             [Deliver (sample_msg Byte.x01);
                              KeyboardInterrupt] 0)))
                (snd (main (sample_env utc) []
                        [Deliver (sample_msg Byte.x01); KeyboardInterrupt] 0))
                eq_refl)
      as [(H & _) | [(H & _) | (s & tr' & H1 & H2 & _ & H3 & H4)]].
    + discriminate H.
    + discriminate H.
    + exists s, tr'. repeat split; assumption.
  - destruct (exit_is_bracketed (sample_env utc) ["-t"; ""]
                [KeyboardInterrupt] 0 1 None
                (snd (main (sample_env utc) ["-t"; ""] [KeyboardInterrupt] 0))
                eq_refl)
      as [(_ & _ & [H|H]) | [(_ & _ & cli & H1 & _ & H3) | (s & tr' & H & _)]].
    + discriminate H.
    + discriminate H.
    + exists cli. split; assumption.
    + discriminate H.
Defined.

(** X15. A process that built its recorder exits with status 0 only
    through the interrupt, and then leaves the recorder drained and
    stopped: no frame in the list, the flag cleared. *)
Theorem exit_0_means_interrupted_and_drained
    w argv events now recorder tr :
  main w argv events now = (Exit 0, Some recorder, tr) ->
  In KeyboardInterrupt events
  /\ frames recorder = [] /\ recording recorder = false.
Proof.
  intros Hmain.
  destruct (parse_args argv) as [cli|st|] eqn:Hargs;
    [|unfold main in Hmain; rewrite Hargs in Hmain; discriminate ..].
  destruct (main_built w argv cli events now _ _ _ Hargs Hmain)
    as (Ht & r & s1 & tr1 & Hspin).
  pose proof (spin_interrupted_in w events
                (new_recorder (topic cli) (fps_arg cli) (output cli)))
    as Hin.
  rewrite Hspin in Hin. unfold result_of in Hin. cbn [fst] in Hin.
  assert (Hdec : r = Returned Interrupted \/ r <> Returned Interrupted)
    by (destruct r as [[| |]|ex]; (now left) || (right; discriminate)).
  destruct Hdec as [-> | Hr].
  - split; [exact (Hin eq_refl)|].
    rewrite (main_interrupted w argv cli events now s1 tr1 Hargs Ht Hspin)
      in Hmain.
    pose proof (f_equal (fun x => fst (fst x)) Hmain) as H1.
    pose proof (f_equal (fun x => snd (fst x)) Hmain) as H2.
    cbn [fst snd] in H1, H2. injection H2 as <-.
    split; [|apply save_video_keeps].
    rewrite save_video_state, encoder_returns_set_recording.
    destruct (encoder_returns w now s1); [reflexivity | discriminate].
  - rewrite (main_not_interrupted w argv cli events now _ s1 tr1
               Hargs Ht Hspin Hr) in Hmain.
    destruct r as [[| |]|ex]; discriminate.
Qed.

Lemma exit_0_means_interrupted_and_drained_witness :
  In KeyboardInterrupt [Deliver (sample_msg Byte.x01); KeyboardInterrupt].
Proof.
  refine (proj1
            (exit_0_means_interrupted_and_drained (sample_env utc) []
               [Deliver (sample_msg Byte.x01); KeyboardInterrupt] 0
               _
               (snd (main (sample_env utc) []
                       [Deliver (sample_msg Byte.x01); KeyboardInterrupt] 0))
               _)).
  reflexivity.
Defined.

(** X16. Every run that gets past the command line calls
    [create_subscription] once, on the topic of the command line,
    best-effort, keep-last, depth 10, and never again, whatever happens
    afterwards. *)
Theorem one_subscription w argv cli_args events now :
  parse_args argv = Parsed cli_args ->
  subscriptions (snd (main w argv events now))
  = [(topic cli_args,
      {| reliability := BEST_EFFORT; history := KEEP_LAST; depth := 10 |})].
Proof.
  intros Hargs.
  destruct (create_subscription_returns w (topic cli_args)) eqn:Ht;
    [|rewrite (main_refused w argv cli_args _ now Hargs Ht); reflexivity].
  set (s0 := new_recorder (topic cli_args) (fps_arg cli_args)
                          (output cli_args)).
  pose proof (spin_keeps w events s0) as (_ & _ & _ & Hcb).
  destruct (spin w events s0) as [[r s1] tr1] eqn:Hspin.
  unfold trace_of in Hcb. cbn [snd] in Hcb.
  assert (Hdec : r = Returned Interrupted \/ r <> Returned Interrupted)
    by (destruct r as [[| |]|ex]; (now left) || (right; discriminate)).
  destruct Hdec as [-> | Hr].
  - rewrite (main_interrupted w argv cli_args events now s1 tr1
               Hargs Ht Hspin).
    cbn [snd].
    destruct (callback_trace _ Hcb) as (_ & _ & Hs & _).
    destruct (save_video_quiet w now (set_recording false s1)) as (Hsv & _).
    cbn [init_trace List.app subscriptions].
    rewrite subscriptions_app, Hs. cbn [List.app subscriptions].
    rewrite subscriptions_app, Hsv. reflexivity.
  - rewrite (main_not_interrupted w argv cli_args events now _ s1 tr1
               Hargs Ht Hspin Hr).
    cbn [snd].
    destruct r as [[| |]|ex]; [now elim Hr | | |].
    + exact (proj2 (proj2 (not_interrupted_trace _ _ tr1 [] Hcb
                             (or_introl eq_refl)))).
    + exact (proj2 (proj2 (not_interrupted_trace _ _ tr1 [] Hcb
                             (or_introl eq_refl)))).
    + exact (proj2 (proj2 (not_interrupted_trace _ _ tr1 _ Hcb
                             (or_intror eq_refl)))).
Qed.

Lemma one_subscription_witness :
  subscriptions
    (snd (main (sample_env utc) ["-t"; "/camera/image_raw"]
            [Deliver (sample_msg Byte.x01); KeyboardInterrupt] 0))
  = [("/camera/image_raw",
      {| reliability := BEST_EFFORT; history := KEEP_LAST; depth := 10 |})].
Proof.
  apply (one_subscription (sample_env utc) ["-t"; "/camera/image_raw"]
           {| topic := "/camera/image_raw"; fps_arg := 8; output := None |}).
  reflexivity.
Defined.
